(** * FollowMark: the popup's storage flow and the Check/Return guards

    A shallow embedding of [src/common.ts], [src/popup.ts] and the
    type-guard module (check.ts), with the properties of the
    specification stated over it.

    JavaScript values are an inductive type with the language's [typeof]
    and truthiness; the extension-local store is a finite map from slot
    names to values; code that throws returns a [Result]; code that
    talks to the platform (storage, tabs, scripting, console) runs in a
    small state-and-trace monad that records every platform call. *)

From Stdlib Require Import ZArith NArith Lia Ascii String List.
From stdpp Require Import base strings pretty gmap list fin_maps.

Local Open Scope string_scope.
Set Warnings "-register-all".

(** ** JavaScript values *)

(** Numbers are restricted to integers: the only numbers this program
    inspects are tab ids. *)
Inductive JsVal : Type :=
| JUndefined
| JNull
| JBool (b : bool)
| JNum (n : Z)
| JStr (s : string)
| JArr (items : list JsVal)
| JObj (props : gmap string JsVal).

(** [typeof item] *)
Definition typeof (item : JsVal) : string :=
  match item with
  | JUndefined => "undefined"
  | JNull => "object"
  | JBool _ => "boolean"
  | JNum _ => "number"
  | JStr _ => "string"
  | JArr _ => "object"
  | JObj _ => "object"
  end.

(** [Array.isArray(item)] *)
Definition Array_isArray (item : JsVal) : bool :=
  match item with
  | JArr _ => true
  | _ => false
  end.

(** The truthiness that [if (x)] and [!x] test. *)
Definition truthy (v : JsVal) : bool :=
  match v with
  | JUndefined | JNull => false
  | JBool b => b
  | JNum n => negb (n =? 0)%Z
  | JStr s => negb (String.eqb s "")
  | JArr _ | JObj _ => true
  end.

(** ** Exceptions *)

Inductive Exn : Type :=
| Error (message : string)
| TypeError (message : string).

Inductive Result (A : Type) : Type :=
| Ok (a : A)
| Throw (e : Exn).
Arguments Ok {A} a.
Arguments Throw {A} e.

(** ** The type guards (check.ts) *)

Module Check.

(** [isObject(item)]: not an array, and [typeof item === "object"]. *)
Definition isObject (item : JsVal) : bool :=
  if Array_isArray item then false
  else String.eqb (typeof item) "object".

Definition isArray (item : JsVal) : bool := Array_isArray item.

Definition isTypeOf (item : JsVal) (type : string) : bool :=
  String.eqb (typeof item) type.

Definition ifExists (item : JsVal) : bool :=
  negb (String.eqb (typeof item) "undefined").

(** [Object.keys(ob)]: the platform throws a TypeError on [null] and
    [undefined]; arrays and strings have their indices as keys;
    booleans and numbers have none. *)
Definition index_keys (len : nat) : list string :=
  map (fun i : nat => pretty i) (seq 0 len).

Definition Object_keys (ob : JsVal) : Result (list string) :=
  match ob with
  | JUndefined | JNull =>
      Throw (TypeError "Cannot convert undefined or null to object")
  | JObj props => Ok (map fst (map_to_list props))
  | JArr items => Ok (index_keys (length items))
  | JStr s => Ok (index_keys (String.length s))
  | JBool _ | JNum _ => Ok []
  end.

Module isEmpty.

Definition object (ob : JsVal) : Result bool :=
  if Bool.eqb (isObject ob) false then
    Throw (Error "isEmpty.object() input is not an Object.")
  else
    match Object_keys ob with
    | Ok keys => Ok (Nat.eqb (length keys) 0)
    | Throw e => Throw e
    end.

Definition array (array : JsVal) : Result bool :=
  if Bool.eqb (isArray array) false then
    Throw (Error "isEmpty.array() input is not an Array.")
  else
    match array with
    | JArr items => Ok (Nat.eqb (length items) 0)
    | _ => Ok false
    end.

Definition string (string : JsVal) : Result bool :=
  if Bool.eqb (isTypeOf string "string") false then
    Throw (Error "isEmpty.string() input is not a string.")
  else
    match string with
    | JStr s => Ok (Nat.eqb (String.length s) 0)
    | _ => Ok false
    end.

End isEmpty.

(** [forUndefined(item)] *)
Definition forUndefined (item : JsVal) : Result JsVal :=
  if String.eqb (typeof item) "undefined" then
    Throw (Error "item is undefined")
  else Ok item.

(** [forNull(item)]: the message interpolates the item, which is
    [null] on the branch that throws, and a template literal renders
    [null] as "null". *)
Definition forNull (item : JsVal) : Result JsVal :=
  match item with
  | JNull => Throw (Error ("null" ++ " is null"))
  | _ => Ok item
  end.

End Check.

(** The [Return] wrappers delegate to the guards. *)
Module Return.
Definition element (item : JsVal) : Result JsVal := Check.forNull item.
Definition button (button : JsVal) : Result JsVal := Check.forNull button.
Definition string (string : JsVal) : Result JsVal := Check.forNull string.
Definition number (number : JsVal) : Result JsVal := Check.forUndefined number.
Definition _any (item : JsVal) : Result JsVal := Check.forNull item.
End Return.

(** ** Base-36 rendering of numbers *)

(** The digit for [d < 36]: ['0'..'9'] then ['a'..'z']. *)
Definition digit36 (d : N) : ascii :=
  if (d <? 10)%N then ascii_of_N (48 + d) else ascii_of_N (87 + d).

Fixpoint toString36_aux (fuel : nat) (n : N) (acc : string) : string :=
  match fuel with
  | O => acc
  | S fuel' =>
      let acc' := String (digit36 (n mod 36)) acc in
      if (n / 36 =? 0)%N then acc' else toString36_aux fuel' (n / 36) acc'
  end.

(** [n.toString(36)] for a non-negative integer [n]; the fuel is the
    bit length of [n], which bounds its number of base-36 digits. *)
Definition toString36 (n : N) : string :=
  toString36_aux (S (N.to_nat (N.log2 n))) n "".

(** The value of a base-36 digit, and of a digit string read most
    significant digit first. *)
Definition value36 (c : ascii) : N :=
  let k := N_of_ascii c in
  if (k <? 58)%N then (k - 48)%N else (k - 87)%N.

Fixpoint parse36_from (acc : N) (s : string) : N :=
  match s with
  | EmptyString => acc
  | String c s' => parse36_from (acc * 36 + value36 c) s'
  end.

Definition parse36 (s : string) : N := parse36_from 0 s.

Definition is_digit36 (c : ascii) : bool :=
  let k := N_of_ascii c in
  ((48 <=? k) && (k <=? 57) || (97 <=? k) && (k <=? 122))%N.

Fixpoint all_digit36 (s : string) : bool :=
  match s with
  | EmptyString => true
  | String c s' => is_digit36 c && all_digit36 s'
  end.

(** [s.slice(start)] for a non-negative [start]. *)
Fixpoint slice (start : nat) (s : string) : string :=
  match start, s with
  | O, _ => s
  | S _, EmptyString => EmptyString
  | S k, String _ s' => slice k s'
  end.

(** [s.startsWith(p)] *)
Definition startsWith (s p : string) : bool := String.prefix p s.

(** [s] contains [sub], letter case respected. *)
Fixpoint includes (s sub : string) : bool :=
  String.prefix sub s ||
  match s with
  | EmptyString => false
  | String _ s' => includes s' sub
  end.

(** ASCII lower-casing: ['A'..'Z'] move to ['a'..'z'], all else stays. *)
Definition ascii_lower (c : ascii) : ascii :=
  let k := N_of_ascii c in
  if ((65 <=? k) && (k <=? 90))%N then ascii_of_N (k + 32) else c.

Fixpoint ascii_lowercase (s : string) : string :=
  match s with
  | EmptyString => EmptyString
  | String c s' => String (ascii_lower c) (ascii_lowercase s')
  end.

(** The attribute selector [[rel*="icon"]] on an element of an HTML
    document: the value of [rel] contains "icon", and for [rel] the
    comparison is ASCII case-insensitive. *)
Definition rel_matches_icon (rel : string) : bool :=
  includes (ascii_lowercase rel) "icon".

(** ** The platform: tabs, pages, storage, console *)

(** [chrome.tabs.Tab]: every field the program reads is optional. *)
Record Tab : Type := {
  tab_id : option Z;
  tab_url : option string;
  tab_title : option string;
  tab_favIconUrl : option string
}.

(** A page is seen through its [link] elements, in document order. *)
Record Link : Type := { rel : string; href : string }.
Definition Document : Type := list Link.

(** What the platform answers during one click: the packaged version,
    the tabs the active-tab query finds, the page a script injection
    reaches ([None] when the injection is rejected), the clock, and the
    base-36 rendering of the random draw. *)
Record Env : Type := {
  manifest_version : string;
  active_tabs : list Tab;
  page_of : Z -> option Document;
  Date_now : N;
  Math_random36 : string
}.

(** The platform calls the program makes, in the order it makes them. *)
Inductive Event : Type :=
| StorageGet (key : string)
| StorageSet (items : gmap string JsVal)
| ConsoleLog (v : JsVal)
| ConsoleError (message : string)
| TabsQuery
| ExecuteScript (tabId : Z).

(** A callback handed to the platform and not yet run. The program
    registers one kind only: the function [MakeMark] passes to
    [chrome.tabs.query]. *)
Inductive Task : Type :=
| QueryCallback.

(** The extension-local store and the callbacks awaiting their turn. *)
Record World : Type := {
  storage : gmap string JsVal;
  pending : list Task
}.

Record Outcome (A : Type) : Type := {
  result : Result A;
  world : World;
  events : list Event
}.
Arguments result {A} _.
Arguments world {A} _.
Arguments events {A} _.

(** Computations over the world that may throw and that log their
    platform calls. An [await] is sequencing. *)
Definition M (A : Type) : Type := World -> Outcome A.

Definition ret {A} (a : A) : M A :=
  fun w => {| result := Ok a; world := w; events := [] |}.

Definition throw {A} (e : Exn) : M A :=
  fun w => {| result := Throw e; world := w; events := [] |}.

Definition bind {A B} (m : M A) (k : A -> M B) : M B :=
  fun w =>
    let o := m w in
    match result o with
    | Ok a =>
        let o' := k a (world o) in
        {| result := result o'; world := world o';
           events := events o ++ events o' |}
    | Throw e => {| result := Throw e; world := world o; events := events o |}
    end.

(** [try { m } catch (error) { h error }] *)
Definition try_catch {A} (m : M A) (h : Exn -> M A) : M A :=
  fun w =>
    let o := m w in
    match result o with
    | Ok a => o
    | Throw e =>
        let o' := h e (world o) in
        {| result := result o'; world := world o';
           events := events o ++ events o' |}
    end.

Definition emit (ev : Event) : M unit :=
  fun w => {| result := Ok tt; world := w; events := [ev] |}.

Declare Scope js_scope.
Delimit Scope js_scope with js.
Notation "x <- m ;; k" := (bind m (fun x => k))
  (at level 100, m at next level, right associativity) : js_scope.
Notation "m ;; k" := (bind m (fun _ => k))
  (at level 100, right associativity) : js_scope.
Local Open Scope js_scope.

Definition console_log (v : JsVal) : M unit := emit (ConsoleLog v).
Definition console_error (message : string) : M unit :=
  emit (ConsoleError message).

(** [chrome.storage.local.set(items)]: each top-level key of [items]
    replaces the slot of that name, the other slots are kept (a shallow
    merge of [items] into the store). *)
Definition storage_local_set (items : gmap string JsVal) : M unit :=
  fun w =>
    {| result := Ok tt;
       world := {| storage := items ∪ storage w; pending := pending w |};
       events := [StorageSet items] |}.

(** [chrome.storage.local.get(key)]: an object holding the slot when it
    is set, and nothing otherwise. *)
Definition storage_local_get (key : string) : M (gmap string JsVal) :=
  fun w =>
    {| result := Ok (match storage w !! key with
                     | Some v => {[ key := v ]}
                     | None => ∅
                     end);
       world := w;
       events := [StorageGet key] |}.

(** [ob[key]] on an object: a missing property reads as [undefined]. *)
Definition prop (ob : gmap string JsVal) (key : string) : JsVal :=
  match ob !! key with
  | Some v => v
  | None => JUndefined
  end.

(** [document.querySelector('link[rel*="icon"]')]: the first link, in
    document order, whose [rel] matches. *)
Definition querySelector_link_icon (doc : Document) : option Link :=
  find (fun link => rel_matches_icon (rel link)) doc.

(** The injected function: [link ? link.href : ""]. *)
Definition injected_func (doc : Document) : string :=
  match querySelector_link_icon doc with
  | Some link => href link
  | None => ""
  end.

(** [chrome.scripting.executeScript({ target: { tabId }, func })] with
    the function of [getInfoFromTab]: it rejects when the page cannot be
    reached, and otherwise yields one result, that of running the
    function in the page. *)
Definition executeScript (env : Env) (tabId : Z) : M (list string) :=
  fun w =>
    {| result := match page_of env tabId with
                 | Some doc => Ok [injected_func doc]
                 | None => Throw (Error "Cannot access contents of the page")
                 end;
       world := w;
       events := [ExecuteScript tabId] |}.

(** [chrome.tabs.query(queryInfo, callback)]: the callback is queued;
    the call itself returns at once. *)
Definition tabs_query (callback : Task) : M unit :=
  fun w =>
    {| result := Ok tt;
       world := {| storage := storage w; pending := pending w ++ [callback] |};
       events := [TabsQuery] |}.

(** ** common.ts *)

Definition writeStorage (items : gmap string JsVal) : M unit :=
  console_log (JObj items);;
  storage_local_set items.

Definition getStorage (key : string) : M JsVal :=
  retrieved <- storage_local_get key;;
  console_log (prop retrieved key);;
  ret (prop retrieved key).

(** [Date.now().toString(36) + Math.random().toString(36).slice(2)] *)
Definition generateUniqueId (env : Env) : string :=
  toString36 (Date_now env) ++ slice 2 (Math_random36 env).

Record TabInfo : Type := {
  url : string;
  title : string;
  favIconUrl : string
}.

(** [let x = field; if (!x) x = "";] for an optional string field:
    [undefined] and the empty string are the falsy cases. *)
Definition or_empty (field : option string) : string :=
  match field with
  | Some s => if negb (truthy (JStr s)) then "" else s
  | None => ""
  end.

Definition getInfoFromTab (env : Env) (tab : Tab) : M TabInfo :=
  let url := or_empty (tab_url tab) in
  let title := or_empty (tab_title tab) in
  let favIconUrl := or_empty (tab_favIconUrl tab) in
  if startsWith favIconUrl "data:" then
    match tab_id tab with
    | None => ret {| url := url; title := title; favIconUrl := "" |}
    | Some tabId =>
        if negb (truthy (JNum tabId)) then
          ret {| url := url; title := title; favIconUrl := "" |}
        else
          favIconUrl' <-
            try_catch
              (results <- executeScript env tabId;;
               (* [results && results[0]?.result]: an array is truthy *)
               match results with
               | r :: _ => if truthy (JStr r) then ret r else ret favIconUrl
               | [] => ret favIconUrl
               end)
              (fun error =>
                 console_error "Failed to fetch favicon:";;
                 ret favIconUrl);;
          ret {| url := url; title := title; favIconUrl := favIconUrl' |}
    end
  else
    ret {| url := url; title := title; favIconUrl := favIconUrl |}.

(** The object literal [{ id, favIconUrl }]. *)
Definition mark (id favIconUrl : string) : JsVal :=
  JObj (<["id" := JStr id]> {["favIconUrl" := JStr favIconUrl]}).

(** The callback [MakeMark] hands to [chrome.tabs.query]. Reading
    [foundTabs[0]] of an empty answer gives [undefined], whose [url]
    cannot be read. *)
Definition query_callback (env : Env) (foundTabs : list Tab) : M unit :=
  match foundTabs with
  | [] =>
      throw (TypeError "Cannot read properties of undefined (reading 'url')")
  | foundTab :: _ =>
      info <- getInfoFromTab env foundTab;;
      let id := generateUniqueId env in
      writeStorage
        {[ "followMarks" :=
             JObj {[ url info := mark id (favIconUrl info) ]} ]}
  end.

Definition MakeMark : M unit := tabs_query QueryCallback.

(** [getInfoFromTab(foundTabs[0])] as JavaScript runs it: the argument
    is [undefined] when the query found no tab, and reading [tab.url]
    then throws before anything else is done. *)
Definition getInfoFromTab_call (env : Env) (foundTab : option Tab)
    : M TabInfo :=
  match foundTab with
  | None =>
      throw (TypeError "Cannot read properties of undefined (reading 'url')")
  | Some tab => getInfoFromTab env tab
  end.

(** ** popup.ts: the click handler of the button *)

Definition onclick (env : Env) : M unit :=
  followMarkVersionTest <- getStorage "followMarkVersion";;
  (if negb (truthy followMarkVersionTest) then
     let version := manifest_version env in
     writeStorage {[ "followMarkVersion" := JStr version ]}
   else ret tt);;
  followMarksTest <- getStorage "followMarks";;
  if negb (truthy followMarksTest) then MakeMark else ret tt.

(** ** The event loop *)

(** Running a queued callback with the platform's answer. A rejection
    inside it has no handler: it is dropped, its effects so far stay. *)
Definition run_task (env : Env) (t : Task) : M unit :=
  match t with
  | QueryCallback =>
      try_catch (query_callback env (active_tabs env)) (fun _ => ret tt)
  end.

Fixpoint run_tasks (env : Env) (ts : list Task) : M unit :=
  match ts with
  | [] => ret tt
  | t :: ts' => run_task env t;; run_tasks env ts'
  end.

(** Run every callback that is queued, at one moment: they all see the
    same answers of the platform. Callbacks that run at different
    moments are separate [run_task] steps, each with its own answers,
    as in [reachable] below. *)
Definition drain (env : Env) : M unit :=
  fun w => run_tasks env (pending w) {| storage := storage w; pending := [] |}.

(** One complete run of a click: the handler, then the callbacks it
    left queued. *)
Definition click (env : Env) : M unit :=
  onclick env;; drain env.

(** ** What a trace shows *)

(** The items of every [chrome.storage.local.set] call. *)
Fixpoint storage_writes (evs : list Event) : list (gmap string JsVal) :=
  match evs with
  | [] => []
  | StorageSet items :: evs' => items :: storage_writes evs'
  | _ :: evs' => storage_writes evs'
  end.

(** The tab ids of every script injection. *)
Fixpoint script_injections (evs : list Event) : list Z :=
  match evs with
  | [] => []
  | ExecuteScript tabId :: evs' => tabId :: script_injections evs'
  | _ :: evs' => script_injections evs'
  end.

(** [MakeMark] is the only caller of [chrome.tabs.query], and calls it
    once: its invocations are the queries of the trace. *)
Fixpoint MakeMark_calls (evs : list Event) : nat :=
  match evs with
  | [] => 0
  | TabsQuery :: evs' => S (MakeMark_calls evs')
  | _ :: evs' => MakeMark_calls evs'
  end.

(** The two objects the program hands to [writeStorage]. *)
Definition version_items (env : Env) : gmap string JsVal :=
  {[ "followMarkVersion" := JStr (manifest_version env) ]}.

Definition mark_items (env : Env) (info : TabInfo) : gmap string JsVal :=
  {[ "followMarks" :=
       JObj {[ url info := mark (generateUniqueId env) (favIconUrl info) ]} ]}.

(** ** The states the extension can be in *)

(** A fresh installation: nothing stored, nothing queued. *)
Definition fresh : World := {| storage := ∅; pending := [] |}.

(** From a fresh installation, the user clicks and queued callbacks run,
    in any interleaving and under any answers of the platform. *)
Inductive reachable : World -> Prop :=
| reach_fresh : reachable fresh
| reach_click env w :
    reachable w -> reachable (world (onclick env w))
| reach_callback env w t ts :
    reachable w ->
    pending w = t :: ts ->
    reachable
      (world (run_task env t {| storage := storage w; pending := ts |})).

(** ** Concrete inputs *)

Definition data_uri : string := "data:image/png;base64,AAAA".

(** A tab with an inline favicon, as pages without an icon link get. *)
Definition tab_inline : Tab :=
  {| tab_id := Some 7%Z;
     tab_url := Some "https://x/";
     tab_title := Some "X";
     tab_favIconUrl := Some data_uri |}.

Definition tab_no_id : Tab :=
  {| tab_id := None;
     tab_url := Some "https://x/";
     tab_title := Some "X";
     tab_favIconUrl := Some data_uri |}.

Definition tab_plain : Tab :=
  {| tab_id := Some 7%Z;
     tab_url := Some "https://x/";
     tab_title := Some "X";
     tab_favIconUrl := Some "https://x/icon.ico" |}.

Definition page_with_icon : Document :=
  [ {| rel := "stylesheet"; href := "https://x/site.css" |};
    {| rel := "icon"; href := "https://x/icon.png" |} ].

Definition page_without_icon : Document :=
  [ {| rel := "stylesheet"; href := "https://x/site.css" |} ].

Definition env_of (tabs : list Tab) (page : option Document) : Env :=
  {| manifest_version := "1.0";
     active_tabs := tabs;
     page_of := fun _ => page;
     Date_now := 1762041600000;
     Math_random36 := "0.4fzyo82mvyr" |}.

(** The injection is rejected. *)
Definition env_rejected : Env := env_of [tab_inline] None.
(** The injection runs in a page that has no icon link. *)
Definition env_no_link : Env := env_of [tab_inline] (Some page_without_icon).
(** The injection runs in a page that has one. *)
Definition env_icon : Env := env_of [tab_inline] (Some page_with_icon).

(** A page with two icon links, as most pages have, the first of them
    spelled in capitals. *)
Definition touch_link : Link :=
  {| rel := "APPLE-TOUCH-ICON"; href := "https://x/touch.png" |}.

Definition icon_link : Link :=
  {| rel := "icon"; href := "https://x/icon.png" |}.

Definition page_two_icons : Document :=
  [ {| rel := "stylesheet"; href := "https://x/site.css" |};
    touch_link; icon_link ].

Definition env_two_icons : Env := env_of [tab_inline] (Some page_two_icons).

(** A tab whose id is 0. *)
Definition tab_id_zero : Tab :=
  {| tab_id := Some 0%Z;
     tab_url := Some "https://x/";
     tab_title := Some "X";
     tab_favIconUrl := Some data_uri |}.

(** A store whose [followMarks] slot holds the empty mapping. *)
Definition store_empty_mapping : World :=
  {| storage := {[ "followMarks" := JObj ∅ ]}; pending := [] |}.

(** Two calls of [generateUniqueId] within one millisecond whose random
    draws coincide. *)
Definition first_call : Env := env_of [] None.
Definition second_call : Env := env_of [tab_plain] None.

(** A store that already holds a mark for another page. *)
Definition mark_b : JsVal := mark "mhgy2nzz8k2l0qd1x7" "https://b/icon.ico".

Definition store_with_b : World :=
  {| storage := {[ "followMarks" := JObj {[ "https://b" := mark_b ]} ]};
     pending := [] |}.

Definition tab_a : Tab :=
  {| tab_id := Some 7%Z;
     tab_url := Some "https://a";
     tab_title := Some "A";
     tab_favIconUrl := Some "https://a/icon.ico" |}.

Definition env_a : Env := env_of [tab_a] None.

(** The store after a first run: a version and a mapping. *)
Definition store_populated : World :=
  {| storage :=
       <[ "followMarkVersion" := JStr "1.0" ]> (storage store_with_b);
     pending := [] |}.

(** ** The popup document: elements and DOM calls *)

Inductive Namespace : Type := HTML | SVG | OtherNamespace.

(** An element, as far as [instanceof] can tell. *)
Record Element : Type := { namespace : Namespace; localName : string }.

Definition instanceof_HTMLElement (e : Element) : bool :=
  match namespace e with HTML => true | _ => false end.

Definition instanceof_SVGElement (e : Element) : bool :=
  match namespace e with SVG => true | _ => false end.

Definition instanceof_HTMLButtonElement (e : Element) : bool :=
  instanceof_HTMLElement e && String.eqb (localName e) "button".

(** The values the [HTMLAttributes] and [SVGAttributes] interfaces give
    to their keys: strings, numbers, booleans, string arrays, string
    records in insertion order, and functions. The code does nothing
    with a number or a function but test its type and turn it into a
    string: a number is seen through the text [String(n)] gives it
    ("3", "0.5", "1e+21"), a function through its source text. [null]
    is outside the interfaces but inside what the code tests for. *)
Inductive AttrVal : Type :=
| AUndefined
| ANull
| AStr (s : string)
| ANum (text : string)
| ABool (b : bool)
| AStrings (items : list string)
| ARecord (entries : list (string * string))
| AHandler (source : string).

Definition attr_typeof (value : AttrVal) : string :=
  match value with
  | AUndefined => "undefined"
  | ANull | AStrings _ | ARecord _ => "object"
  | AStr _ => "string"
  | ANum _ => "number"
  | ABool _ => "boolean"
  | AHandler _ => "function"
  end.

Definition attr_isArray (value : AttrVal) : bool :=
  match value with AStrings _ => true | _ => false end.

(** [items.join(",")] *)
Fixpoint join_comma (items : list string) : string :=
  match items with
  | [] => ""
  | [s] => s
  | s :: rest => s ++ "," ++ join_comma rest
  end.

(** [String(value)] *)
Definition attr_String (value : AttrVal) : string :=
  match value with
  | AUndefined => "undefined"
  | ANull => "null"
  | AStr s => s
  | ANum text => text
  | ABool true => "true"
  | ABool false => "false"
  | AStrings items => join_comma items
  | ARecord _ => "[object Object]"
  | AHandler source => source
  end.

(** The elements [...value] spreads. *)
Definition attr_items (value : AttrVal) : list string :=
  match value with
  | AStrings items => items
  | _ => []
  end.

(** [Object.entries(value)] of an array or a record. *)
Fixpoint indexed_from (i : nat) (items : list string) : list (string * string) :=
  match items with
  | [] => []
  | s :: rest => (pretty i, s) :: indexed_from (S i) rest
  end.

Definition attr_entries (value : AttrVal) : list (string * string) :=
  match value with
  | AStrings items => indexed_from 0 items
  | ARecord entries => entries
  | _ => []
  end.

(** The calls the helpers make on the document and its elements. *)
Inductive DomCall : Type :=
| CreateElement (tagName : string)
| CreateElementNS (namespaceURI tagName : string)
| ClassListAdd (element : Element) (tokens : list string)
| SetAttribute (element : Element) (name value : string)
| SetProperty (element : Element) (key : string) (value : AttrVal)
| GetElementById (id : string)
| AppendChild (target child : Element)
| DomConsoleLog (message : string)
| DomConsoleError (message : string).

(** What the popup's document answers: the element an id names, and
    the exception, if any, with which it refuses a call (an invalid
    attribute name, an empty class token, a child it cannot take). *)
Record Page : Type := {
  getElementById : string -> option Element;
  rejects : DomCall -> option Exn
}.

(** The calls made so far, and the value or the exception. *)
Definition D (A : Type) : Type := (list DomCall * Result A)%type.

Definition dret {A} (a : A) : D A := ([], Ok a).

Definition dthrow {A} (e : Exn) : D A := ([], Throw e).

Definition dbind {A B} (m : D A) (k : A -> D B) : D B :=
  match snd m with
  | Ok a => ((fst m ++ fst (k a))%list, snd (k a))
  | Throw e => (fst m, Throw e)
  end.

Definition dcall (pg : Page) (c : DomCall) : D unit :=
  ([c], match rejects pg c with
        | Some e => Throw e
        | None => Ok tt
        end).

Declare Scope dom_scope.
Delimit Scope dom_scope with dom.
Notation "x <- m ;; k" := (dbind m (fun x => k))
  (at level 100, m at next level, right associativity) : dom_scope.
Notation "m ;; k" := (dbind m (fun _ => k))
  (at level 100, right associativity) : dom_scope.

(** ** check.ts: [Get] *)

Module Get.

(** [elementByID(id)] *)
Definition elementByID (pg : Page) (id : string) : D Element :=
  (_ <- ([GetElementById id], Ok tt) ;;
   match getElementById pg id with
   | None =>
       ([DomConsoleLog "element:"], Ok tt) ;;
       dthrow (Error "Element is null in elementByID.")
   | Some item => dret item
   end)%dom.

(** [button(id)] *)
Definition button (pg : Page) (id : string) : D Element :=
  (_ <- ([GetElementById id], Ok tt) ;;
   match getElementById pg id with
   | None =>
       ([DomConsoleLog "element:"], Ok tt) ;;
       dthrow (Error "Element is null in button.")
   | Some item =>
       if instanceof_HTMLButtonElement item then dret item
       else dthrow (Error "Element is not a button.")
   end)%dom.

End Get.

(** ** build.ts *)

(** [key.startsWith("on") || key === "innerText" || key === "innerHTML"
    || key === "textContent"] *)
Definition is_direct_property (key : string) : bool :=
  startsWith key "on" || String.eqb key "innerText" ||
  String.eqb key "innerHTML" || String.eqb key "textContent".

(** The inner loop: one [data-] attribute per entry. *)
Fixpoint set_data_attributes
    (pg : Page) (element : Element) (entries : list (string * string))
    : D unit :=
  match entries with
  | [] => dret tt
  | (dataKey, dataValue) :: rest =>
      (dcall pg (SetAttribute element ("data-" ++ dataKey) dataValue) ;;
       set_data_attributes pg element rest)%dom
  end.

(** [setElementAttributes(element, attributes)], over the entries of
    [attributes] in insertion order. *)
Fixpoint setElementAttributes
    (pg : Page) (element : Element) (attributes : list (string * AttrVal))
    : D unit :=
  match attributes with
  | [] => dret tt
  | (key, value) :: rest =>
      match value with
      | AUndefined => setElementAttributes pg element rest
      | _ =>
          if String.eqb key "classList" && attr_isArray value then
            (dcall pg (ClassListAdd element (attr_items value)) ;;
             setElementAttributes pg element rest)%dom
          else if String.eqb key "data" &&
                  String.eqb (attr_typeof value) "object" &&
                  negb (match value with ANull => true | _ => false end) then
            (set_data_attributes pg element (attr_entries value) ;;
             setElementAttributes pg element rest)%dom
          else if is_direct_property key then
            (dcall pg (SetProperty element key value) ;;
             setElementAttributes pg element rest)%dom
          else
            (dcall pg (SetAttribute element key (attr_String value)) ;;
             setElementAttributes pg element rest)%dom
      end
  end.

(** The [appendTo] argument: left out, an id, or an element. *)
Inductive AppendTo : Type :=
| NoTarget
| ById (id : string)
| ToElement (target : Element).

(** [if (appendTo)]: [undefined] and the empty string are falsy. *)
Definition appendTo_truthy (appendTo : AppendTo) : bool :=
  match appendTo with
  | NoTarget => false
  | ById id => negb (String.eqb id "")
  | ToElement _ => true
  end.

(** [typeof appendTo === "string" ? Get.elementByID(appendTo) : appendTo],
    evaluated only when [appendTo] is truthy, so never on [NoTarget]. *)
Definition resolve_target (pg : Page) (appendTo : AppendTo) (element : Element)
    : D Element :=
  match appendTo with
  | ById id => Get.elementByID pg id
  | ToElement target => dret target
  | NoTarget => dret element
  end.

Definition buildElement
    (pg : Page) (tagName : string) (attributes : list (string * AttrVal))
    (appendTo : AppendTo) : D Element :=
  let element := {| namespace := HTML; localName := tagName |} in
  (dcall pg (CreateElement tagName) ;;
   setElementAttributes pg element attributes ;;
   if appendTo_truthy appendTo then
     target <- resolve_target pg appendTo element ;;
     if negb (instanceof_HTMLElement target) then
       ([DomConsoleError "The appendTo for target is not an HTML element."],
        Ok tt) ;;
       dret element
     else
       dcall pg (AppendChild target element) ;;
       dret element
   else dret element)%dom.

Definition svgNS : string := "http://www.w3.org/2000/svg".

Definition buildSVG
    (pg : Page) (tagName : string) (attributes : list (string * AttrVal))
    (appendTo : AppendTo) : D Element :=
  let element := {| namespace := SVG; localName := tagName |} in
  (dcall pg (CreateElementNS svgNS tagName) ;;
   setElementAttributes pg element attributes ;;
   if appendTo_truthy appendTo then
     target <- resolve_target pg appendTo element ;;
     if negb (instanceof_HTMLElement target) &&
        negb (instanceof_SVGElement target) then
       ([DomConsoleError "The appendTo target is not an HTML or SVG element."],
        Ok tt) ;;
       dret element
     else
       dcall pg (AppendChild target element) ;;
       dret element
   else dret element)%dom.

(** ** popup.ts: [Main] *)

(** The function assigned to [mainButton.onclick] is [onclick] above;
    the document sees it as a function value. *)
Definition Main (pg : Page) : D unit :=
  (mainButton <- buildElement pg "button" [] (ById "stage") ;;
   dcall pg (SetProperty mainButton "textContent" (AStr "Make FallowMark")) ;;
   dcall pg (SetProperty mainButton "onclick" (AHandler "async () => {}")))%dom.

(** The trace of a computation, and the calls of a kind in it. *)
Definition calls {A} (m : D A) : list DomCall := fst m.
Definition outcome {A} (m : D A) : Result A := snd m.

Definition is_SetAttribute_named (P : string -> bool) (c : DomCall) : bool :=
  match c with
  | SetAttribute _ name _ => P name
  | _ => false
  end.

Definition is_AppendChild (c : DomCall) : bool :=
  match c with AppendChild _ _ => true | _ => false end.

Definition is_SetProperty (c : DomCall) : bool :=
  match c with SetProperty _ _ _ => true | _ => false end.

(** An entry whose value is not [undefined]. *)
Definition defined_entry (entry : string * AttrVal) : bool :=
  match snd entry with
  | AUndefined => false
  | _ => true
  end.

(** A page that refuses nothing. *)
Definition accepts_all (pg : Page) : Prop := forall c, rejects pg c = None.

(** Further concrete inputs. *)

Definition env_no_tab : Env := env_of [] None.

(** The platform a millisecond later, with another tab in front and
    another random draw. *)
Definition env_later : Env :=
  {| manifest_version := "1.0";
     active_tabs := [tab_plain];
     page_of := fun _ => None;
     Date_now := 1762041600001;
     Math_random36 := "0.8k2l0qd1x7" |}.

Definition page_with_stage : Page :=
  {| getElementById := fun id =>
       if String.eqb id "stage"
       then Some {| namespace := HTML; localName := "div" |}
       else if String.eqb id "go"
       then Some {| namespace := HTML; localName := "button" |}
       else if String.eqb id "logo"
       then Some {| namespace := SVG; localName := "svg" |}
       else None;
     rejects := fun _ => None |}.

Definition page_empty : Page :=
  {| getElementById := fun _ => None; rejects := fun _ => None |}.

Definition sample_attributes : list (string * AttrVal) :=
  [ ("id", AStr "save");
    ("title", AUndefined);
    ("classList", AStrings ["primary"; "wide"]);
    ("data", ARecord [("kind", "mark"); ("slot", "1")]);
    ("tabIndex", ANum "3");
    ("width", ANum "1e+21");
    ("onclick", AHandler "() => save()") ].

(** A page that refuses an empty class token, as [classList.add] does. *)
Definition page_strict : Page :=
  {| getElementById := fun _ => None;
     rejects := fun c =>
       match c with
       | ClassListAdd _ tokens =>
           if existsb (String.eqb "") tokens
           then Some (Error "The token provided must not be empty.")
           else None
       | _ => None
       end |}.

(** * Properties *)

(** ** The guards *)

Lemma forNull_not_null (v : JsVal) : v <> JNull -> Check.forNull v = Ok v.
Proof. destruct v; intros H; try reflexivity. now elim H. Qed.

Lemma forUndefined_defined (v : JsVal) :
  v <> JUndefined -> Check.forUndefined v = Ok v.
Proof. destruct v; intros H; try reflexivity. now elim H. Qed.

(** C8. On an input that is neither [null] nor [undefined], the guards
    [Check.forNull] and [Check.forUndefined] and the five [Return]
    wrappers built on them give the input back unchanged. On [null] the
    null guards throw an [Error] whose message is "null is null"; on
    [undefined] the undefined guards throw an [Error] whose message is
    "item is undefined". *)
Theorem guards_return_input_or_throw (v : JsVal)
    (Hnull : v <> JNull) (Hundefined : v <> JUndefined) :
  (Check.forNull v = Ok v /\ Check.forUndefined v = Ok v /\
   Return.element v = Ok v /\ Return.button v = Ok v /\
   Return.string v = Ok v /\ Return.number v = Ok v /\
   Return._any v = Ok v) /\
  (Check.forNull JNull = Throw (Error "null is null") /\
   Return.element JNull = Throw (Error "null is null") /\
   Return.button JNull = Throw (Error "null is null") /\
   Return.string JNull = Throw (Error "null is null") /\
   Return._any JNull = Throw (Error "null is null")) /\
  (Check.forUndefined JUndefined = Throw (Error "item is undefined") /\
   Return.number JUndefined = Throw (Error "item is undefined")).
Proof.
  unfold Return.element, Return.button, Return.string, Return.number,
    Return._any.
  rewrite (forNull_not_null v Hnull), (forUndefined_defined v Hundefined).
  repeat split; reflexivity.
Qed.

Lemma guards_return_input_or_throw_witness :
  Check.forNull (JStr "stage") = Ok (JStr "stage") /\
  Return.number (JNum 3) = Ok (JNum 3).
Proof.
  split.
  - apply (guards_return_input_or_throw (JStr "stage")); discriminate.
  - apply (guards_return_input_or_throw (JNum 3)); discriminate.
Defined.

(** C9. [Check.isObject(null)] is [true], so [Check.isEmpty.object(null)]
    gets past its type guard: it does not throw the error
    "isEmpty.object() input is not an Object."; what it throws is the
    platform's TypeError from [Object.keys(null)]. *)
Theorem isObject_null_passes_guard :
  Check.isObject JNull = true /\
  Check.isEmpty.object JNull
    <> Throw (Error "isEmpty.object() input is not an Object.") /\
  Check.isEmpty.object JNull
    = Throw (TypeError "Cannot convert undefined or null to object").
Proof. repeat split; try reflexivity. discriminate. Qed.

(** ** The tab info extractor *)

Lemma or_empty_Some (s : string) : or_empty (Some s) = s.
Proof.
  unfold or_empty; cbn. destruct (String.eqb_spec s ""); cbn; congruence.
Qed.

Lemma truthy_JStr (s : string) : s <> "" -> truthy (JStr s) = true.
Proof.
  intros H; cbn. destruct (String.eqb_spec s ""); [contradiction | reflexivity].
Qed.

Lemma truthy_JNum (n : Z) : n <> 0%Z -> truthy (JNum n) = true.
Proof.
  intros H; cbn. destruct (Z.eqb_spec n 0); [contradiction | reflexivity].
Qed.

(** The extractor never throws, leaves the world as it found it, and
    does not depend on it. *)
Lemma getInfoFromTab_total (env : Env) (tab : Tab) (w : World) :
  exists info,
    result (getInfoFromTab env tab w) = Ok info /\
    result (getInfoFromTab env tab fresh) = Ok info /\
    world (getInfoFromTab env tab w) = w /\
    storage_writes (events (getInfoFromTab env tab w)) = [] /\
    MakeMark_calls (events (getInfoFromTab env tab w)) = 0 /\
    url info = or_empty (tab_url tab).
Proof.
  unfold getInfoFromTab.
  destruct (startsWith (or_empty (tab_favIconUrl tab)) "data:");
    [| eexists; repeat split; reflexivity].
  destruct (tab_id tab) as [tabId |]; [| eexists; repeat split; reflexivity].
  destruct (negb (truthy (JNum tabId))); [eexists; repeat split; reflexivity |].
  unfold bind, try_catch, executeScript; cbn.
  destruct (page_of env tabId) as [doc |]; cbn.
  - destruct (negb (String.eqb (injected_func doc) "")); cbn;
      eexists; repeat split; reflexivity.
  - eexists; repeat split; reflexivity.
Qed.

(** A data-URI favicon on a tab with no usable id: the empty string,
    and no injection. *)
Lemma getInfoFromTab_no_id (env : Env) (tab : Tab) (s : string) (w : World) :
  tab_favIconUrl tab = Some s ->
  startsWith s "data:" = true ->
  (tab_id tab = None \/ tab_id tab = Some 0%Z) ->
  getInfoFromTab env tab w =
    {| result := Ok {| url := or_empty (tab_url tab);
                       title := or_empty (tab_title tab);
                       favIconUrl := "" |};
       world := w; events := [] |}.
Proof.
  intros Hfav Hdata Hid. unfold getInfoFromTab.
  rewrite Hfav, or_empty_Some, Hdata.
  destruct Hid as [-> | ->]; reflexivity.
Qed.

(** A data-URI favicon whose lookup is rejected or finds no link with a
    non-empty href: the favicon stays the data URI. *)
Lemma getInfoFromTab_lookup_failed
    (env : Env) (tab : Tab) (s : string) (tabId : Z) (w : World) :
  tab_favIconUrl tab = Some s ->
  startsWith s "data:" = true ->
  tab_id tab = Some tabId ->
  tabId <> 0%Z ->
  (page_of env tabId = None \/
   exists doc, page_of env tabId = Some doc /\ injected_func doc = "") ->
  result (getInfoFromTab env tab w) =
    Ok {| url := or_empty (tab_url tab);
          title := or_empty (tab_title tab);
          favIconUrl := s |} /\
  script_injections (events (getInfoFromTab env tab w)) = [tabId].
Proof.
  intros Hfav Hdata Hid Hnz Hfail. unfold getInfoFromTab.
  rewrite Hfav, or_empty_Some, Hdata, Hid, (truthy_JNum _ Hnz). cbn.
  unfold bind, try_catch, executeScript; cbn.
  destruct Hfail as [-> | (doc & -> & Hnone)]; cbn.
  - split; reflexivity.
  - rewrite Hnone; cbn. split; reflexivity.
Qed.

(** C1. The secondary favicon lookup of a data-URI tab never throws,
    and on a tab without an id the favicon is the empty string; but when
    the injection is rejected, or runs and finds no icon link, the
    extractor returns the original data URI, not the empty string. *)
Theorem getInfoFromTab_failed_lookup_keeps_data_uri :
  result (getInfoFromTab env_rejected tab_no_id fresh) =
    Ok {| url := "https://x/"; title := "X"; favIconUrl := "" |} /\
  result (getInfoFromTab env_rejected tab_inline fresh) =
    Ok {| url := "https://x/"; title := "X"; favIconUrl := data_uri |} /\
  events (getInfoFromTab env_rejected tab_inline fresh) =
    [ExecuteScript 7; ConsoleError "Failed to fetch favicon:"] /\
  result (getInfoFromTab env_no_link tab_inline fresh) =
    Ok {| url := "https://x/"; title := "X"; favIconUrl := data_uri |} /\
  data_uri <> "".
Proof. repeat split; try reflexivity. discriminate. Qed.

(** The first match of a predicate in a list. *)
Lemma find_first {A} (f : A -> bool) (before after : list A) (x : A) :
  Forall (fun y => f y = false) before ->
  f x = true ->
  find f (before ++ x :: after) = Some x.
Proof.
  intros Hbefore Hx. induction Hbefore as [| y before Hy _ IH]; cbn.
  - rewrite Hx. reflexivity.
  - rewrite Hy. exact IH.
Qed.

Lemma find_Some_first {A} (f : A -> bool) (l : list A) (x : A) :
  find f l = Some x ->
  exists before after,
    l = (before ++ x :: after)%list /\
    Forall (fun y => f y = false) before /\ f x = true.
Proof.
  induction l as [| y l IH]; cbn; [discriminate |].
  destruct (f y) eqn:Hy.
  - intros [= ->]. exists [], l. repeat split; [constructor | exact Hy].
  - intros Hfind. destruct (IH Hfind) as (before & after & -> & Hb & Hx).
    exists (y :: before), after. repeat split; [| exact Hx].
    constructor; assumption.
Qed.

Lemma find_all_None {A} (f : A -> bool) (l : list A) :
  Forall (fun y => f y = false) l -> find f l = None.
Proof.
  induction 1 as [| y l Hy _ IH]; cbn; [reflexivity |].
  rewrite Hy. exact IH.
Qed.

(** A page holds an icon link with a non-empty href, and the extractor
    returns another href: that of the icon link before it. And on a tab
    whose id is 0 the extractor returns the empty string, whatever the
    page holds. *)
Lemma getInfoFromTab_not_every_icon_link :
  (tab_favIconUrl tab_inline = Some data_uri /\
   startsWith data_uri "data:" = true /\
   page_of env_two_icons 7 = Some page_two_icons /\
   In icon_link page_two_icons /\
   rel_matches_icon (rel icon_link) = true /\
   href icon_link <> "" /\
   result (getInfoFromTab env_two_icons tab_inline fresh) =
     Ok {| url := "https://x/"; title := "X";
           favIconUrl := href touch_link |} /\
   href touch_link <> href icon_link) /\
  (tab_favIconUrl tab_id_zero = Some data_uri /\
   page_of env_icon 0 = Some page_with_icon /\
   In icon_link page_with_icon /\
   result (getInfoFromTab env_icon tab_id_zero fresh) =
     Ok {| url := "https://x/"; title := "X"; favIconUrl := "" |}).
Proof.
  split.
  - repeat split; try reflexivity; try discriminate.
    cbn. tauto.
  - repeat split; try reflexivity. cbn. tauto.
Qed.

(** C5 (amended). For a tab with a data-URI favicon and a non-zero id,
    when the injection reaches the tab's page and the first link of the
    page whose [rel] contains "icon" (letter case aside) has a non-empty
    href, the extractor returns that link's href as the favicon. *)
Theorem getInfoFromTab_resolves_first_icon_link
    (env : Env) (tab : Tab) (s : string) (tabId : Z)
    (before after : list Link) (link : Link) (w : World)
    (Hfav : tab_favIconUrl tab = Some s)
    (Hdata : startsWith s "data:" = true)
    (Hid : tab_id tab = Some tabId)
    (Hnz : tabId <> 0%Z)
    (Hpage : page_of env tabId = Some (before ++ link :: after)%list)
    (Hbefore : Forall (fun l => includes (ascii_lowercase (rel l)) "icon"
                                = false) before)
    (Hlink : includes (ascii_lowercase (rel link)) "icon" = true)
    (Hhref : href link <> "") :
  result (getInfoFromTab env tab w) =
    Ok {| url := or_empty (tab_url tab);
          title := or_empty (tab_title tab);
          favIconUrl := href link |} /\
  script_injections (events (getInfoFromTab env tab w)) = [tabId].
Proof.
  unfold getInfoFromTab.
  rewrite Hfav, or_empty_Some, Hdata, Hid, (truthy_JNum _ Hnz). cbn.
  unfold bind, try_catch, executeScript; cbn.
  rewrite Hpage; cbn. unfold injected_func, querySelector_link_icon.
  rewrite (find_first (fun l => rel_matches_icon (rel l)) before after link
             Hbefore Hlink).
  pose proof (truthy_JStr _ Hhref) as Ht. cbn in Ht. rewrite Ht.
  split; reflexivity.
Qed.

Lemma getInfoFromTab_resolves_first_icon_link_witness :
  result (getInfoFromTab env_two_icons tab_inline fresh) =
    Ok {| url := "https://x/"; title := "X";
          favIconUrl := "https://x/touch.png" |} /\
  script_injections (events (getInfoFromTab env_two_icons tab_inline fresh)) =
    [7%Z].
Proof.
  apply (getInfoFromTab_resolves_first_icon_link env_two_icons tab_inline
           data_uri 7
           [ {| rel := "stylesheet"; href := "https://x/site.css" |} ]
           [icon_link] touch_link fresh).
  - reflexivity.
  - reflexivity.
  - reflexivity.
  - discriminate.
  - reflexivity.
  - constructor; [reflexivity | constructor].
  - reflexivity.
  - discriminate.
Defined.

(** C6. For a tab whose favicon is present and is not a data URI, the
    extractor returns it unchanged and makes no platform call at all, so
    no script is injected. *)
Theorem getInfoFromTab_plain_favicon_unchanged
    (env : Env) (tab : Tab) (s : string) (w : World)
    (Hfav : tab_favIconUrl tab = Some s)
    (Hplain : startsWith s "data:" = false) :
  result (getInfoFromTab env tab w) =
    Ok {| url := or_empty (tab_url tab);
          title := or_empty (tab_title tab);
          favIconUrl := s |} /\
  script_injections (events (getInfoFromTab env tab w)) = [] /\
  events (getInfoFromTab env tab w) = [] /\
  world (getInfoFromTab env tab w) = w.
Proof.
  unfold getInfoFromTab. rewrite Hfav, or_empty_Some, Hplain.
  repeat split; reflexivity.
Qed.

Lemma getInfoFromTab_plain_favicon_unchanged_witness :
  result (getInfoFromTab env_icon tab_plain fresh) =
    Ok {| url := "https://x/"; title := "X";
          favIconUrl := "https://x/icon.ico" |} /\
  script_injections (events (getInfoFromTab env_icon tab_plain fresh)) = [].
Proof.
  pose proof (getInfoFromTab_plain_favicon_unchanged env_icon tab_plain
                "https://x/icon.ico" fresh eq_refl eq_refl) as (H1 & H2 & _).
  split; [exact H1 | exact H2].
Defined.

(** ** Base 36 *)

Lemma value36_digit36 (d : N) : (d < 36)%N -> value36 (digit36 d) = d.
Proof.
  intros Hd. unfold value36, digit36.
  destruct (N.ltb_spec d 10).
  - rewrite N_ascii_embedding by lia.
    destruct (N.ltb_spec (48 + d) 58); lia.
  - rewrite N_ascii_embedding by lia.
    destruct (N.ltb_spec (87 + d) 58); lia.
Qed.

Lemma is_digit36_digit36 (d : N) : (d < 36)%N -> is_digit36 (digit36 d) = true.
Proof.
  intros Hd. unfold is_digit36, digit36.
  destruct (N.ltb_spec d 10); rewrite N_ascii_embedding by lia.
  - apply orb_true_iff; left. apply andb_true_iff; split; apply N.leb_le; lia.
  - apply orb_true_iff; right. apply andb_true_iff; split; apply N.leb_le; lia.
Qed.

Lemma div36_fuel (fuel : nat) (n : N) :
  (n < 2 ^ N.of_nat (S fuel))%N -> (n / 36 < 2 ^ N.of_nat fuel)%N.
Proof.
  intros Hn. apply N.Div0.div_lt_upper_bound.
  rewrite Nat2N.inj_succ, N.pow_succ_r' in Hn. lia.
Qed.

(** Reading back what [toString36_aux] wrote gives the number, once the
    fuel covers its bit length. *)
Lemma parse36_toString36_aux (fuel : nat) :
  forall (n : N) (acc : string),
    (n < 2 ^ N.of_nat fuel)%N ->
    parse36_from 0 (toString36_aux fuel n acc) = parse36_from n acc.
Proof.
  induction fuel as [| fuel IH]; intros n acc Hn.
  - cbn in Hn. assert (n = 0%N) as -> by lia. reflexivity.
  - cbn [toString36_aux].
    assert (Hmod : (n mod 36 < 36)%N) by (apply N.mod_lt; lia).
    pose proof (N.div_mod n 36 ltac:(lia)) as Hdm.
    destruct (N.eqb_spec (n / 36) 0) as [Hz | Hz].
    + cbn [parse36_from]. rewrite value36_digit36 by exact Hmod.
      f_equal. lia.
    + rewrite IH by (apply div36_fuel; exact Hn).
      cbn [parse36_from]. rewrite value36_digit36 by exact Hmod.
      f_equal. lia.
Qed.

Lemma toString36_fuel (n : N) : (n < 2 ^ N.of_nat (S (N.to_nat (N.log2 n))))%N.
Proof.
  rewrite Nat2N.inj_succ, N2Nat.id.
  destruct (N.eq_dec n 0%N) as [-> | Hn]; [cbn; lia |].
  apply N.log2_spec. lia.
Qed.

(** The rendering is lossless. *)
Lemma parse36_toString36 (n : N) : parse36 (toString36 n) = n.
Proof.
  unfold parse36, toString36.
  rewrite parse36_toString36_aux by apply toString36_fuel. reflexivity.
Qed.

Lemma toString36_inj (n m : N) : toString36 n = toString36 m -> n = m.
Proof.
  intros H. rewrite <- (parse36_toString36 n), <- (parse36_toString36 m).
  now rewrite H.
Qed.

Lemma all_digit36_toString36_aux (fuel : nat) :
  forall (n : N) (acc : string),
    all_digit36 acc = true -> all_digit36 (toString36_aux fuel n acc) = true.
Proof.
  induction fuel as [| fuel IH]; intros n acc Hacc; [exact Hacc |].
  cbn [toString36_aux].
  assert (Hd : all_digit36 (String (digit36 (n mod 36)) acc) = true).
  { cbn [all_digit36]. rewrite is_digit36_digit36 by (apply N.mod_lt; lia).
    exact Hacc. }
  destruct (n / 36 =? 0)%N; [exact Hd | apply IH; exact Hd].
Qed.

Lemma all_digit36_toString36 (n : N) : all_digit36 (toString36 n) = true.
Proof. apply all_digit36_toString36_aux. reflexivity. Qed.

Lemma toString36_aux_nonempty (fuel : nat) (n : N) (acc : string) :
  toString36_aux (S fuel) n acc <> "".
Proof.
  revert n acc. induction fuel as [| fuel IH]; intros n acc;
    cbn [toString36_aux]; destruct (n / 36 =? 0)%N; try discriminate.
  apply IH.
Qed.

(** Strings with prefixes of one length split in one way only. *)
Lemma append_inj_length (s1 s2 r1 r2 : string) :
  String.length s1 = String.length s2 ->
  (s1 ++ r1 = s2 ++ r2)%string ->
  s1 = s2 /\ r1 = r2.
Proof.
  revert s2. induction s1 as [| c s1 IH]; intros [| c2 s2] Hlen Heq;
    try discriminate.
  - split; [reflexivity | exact Heq].
  - cbn in Hlen, Heq. injection Heq as -> Heq.
    destruct (IH s2 ltac:(lia) Heq) as [-> ->]. split; reflexivity.
Qed.

(** ** Identifiers *)

(** Two calls, the second not earlier than the first, that return the
    same identifier: nothing in [generateUniqueId] tells them apart when
    the clock and the random draw agree. *)
Lemma generateUniqueId_equal_draws_collide :
  (Date_now first_call <= Date_now second_call)%N /\
  first_call <> second_call /\
  generateUniqueId first_call = generateUniqueId second_call.
Proof.
  split; [cbn; lia |]. split; [| reflexivity].
  intros H. apply (f_equal active_tabs) in H. discriminate.
Qed.

(** C7 (amended). The identifier is the base-36 rendering of the
    call-time timestamp, made of base-36 digits that read back as the
    timestamp, followed by the random draw's base-36 rendering without
    its first two characters (the digits after "0."). Two calls whose
    timestamps render with the same number of digits return distinct
    identifiers exactly when their timestamps differ or their random
    suffixes differ. *)
Theorem generateUniqueId_shape_and_distinctness (e1 e2 : Env)
    (Hlen : String.length (toString36 (Date_now e1)) =
            String.length (toString36 (Date_now e2))) :
  (generateUniqueId e1 =
     (toString36 (Date_now e1) ++ slice 2 (Math_random36 e1))%string /\
   all_digit36 (toString36 (Date_now e1)) = true /\
   parse36 (toString36 (Date_now e1)) = Date_now e1 /\
   (forall digits : string,
      Math_random36 e1 = ("0." ++ digits)%string ->
      generateUniqueId e1 = (toString36 (Date_now e1) ++ digits)%string)) /\
  (generateUniqueId e1 <> generateUniqueId e2 <->
   Date_now e1 <> Date_now e2 \/
   slice 2 (Math_random36 e1) <> slice 2 (Math_random36 e2)).
Proof.
  split.
  - split; [reflexivity |].
    split; [apply all_digit36_toString36 |].
    split; [apply parse36_toString36 |].
    intros digits Hr. unfold generateUniqueId. rewrite Hr. reflexivity.
  - unfold generateUniqueId. split.
    + intros Hne.
      destruct (N.eq_dec (Date_now e1) (Date_now e2)) as [Ht | Ht];
        [right | left; exact Ht].
      intros Hs. apply Hne. rewrite Ht, Hs. reflexivity.
    + intros Hdiff Heq.
      destruct (append_inj_length _ _ _ _ Hlen Heq) as [Ht Hs].
      destruct Hdiff as [Hd | Hd]; [| exact (Hd Hs)].
      apply Hd, toString36_inj, Ht.
Qed.

Lemma generateUniqueId_shape_and_distinctness_witness :
  generateUniqueId (env_of [] None) <>
  generateUniqueId
    {| manifest_version := "1.0"; active_tabs := []; page_of := fun _ => None;
       Date_now := 1762041600001; Math_random36 := "0.4fzyo82mvyr" |}.
Proof.
  apply (generateUniqueId_shape_and_distinctness (env_of [] None)
           {| manifest_version := "1.0"; active_tabs := [];
              page_of := fun _ => None;
              Date_now := 1762041600001; Math_random36 := "0.4fzyo82mvyr" |}
           eq_refl).
  left. cbn. lia.
Defined.

(** ** The storage accessor *)

Lemma prop_get (m : gmap string JsVal) (key : string) :
  prop (match m !! key with
        | Some v => {[ key := v ]}
        | None => ∅
        end) key = prop m key.
Proof.
  unfold prop. destruct (m !! key) as [v |].
  - rewrite lookup_singleton_eq. reflexivity.
  - rewrite lookup_empty. reflexivity.
Qed.

Lemma getStorage_eq (key : string) (w : World) :
  getStorage key w =
    {| result := Ok (prop (storage w) key);
       world := w;
       events := [StorageGet key; ConsoleLog (prop (storage w) key)] |}.
Proof.
  unfold getStorage, bind, storage_local_get, console_log, emit, ret.
  cbn. rewrite prop_get. reflexivity.
Qed.

Lemma writeStorage_eq (items : gmap string JsVal) (w : World) :
  writeStorage items w =
    {| result := Ok tt;
       world := {| storage := items ∪ storage w; pending := pending w |};
       events := [ConsoleLog (JObj items); StorageSet items] |}.
Proof. reflexivity. Qed.

(** The store merges shallowly: a written slot takes the new value
    whole, every other slot keeps its own. *)
Lemma storage_local_set_shallow
    (items : gmap string JsVal) (w : World) (key : string) :
  storage (world (storage_local_set items w)) !! key =
    match items !! key with
    | Some v => Some v
    | None => storage w !! key
    end.
Proof.
  cbn. rewrite lookup_union.
  destruct (items !! key), (storage w !! key); reflexivity.
Qed.

Lemma prop_union_singleton_ne
    (key key' : string) (v : JsVal) (m : gmap string JsVal) :
  key <> key' -> prop ({[ key := v ]} ∪ m) key' = prop m key'.
Proof.
  intros Hne. unfold prop.
  rewrite lookup_union, lookup_singleton_ne by exact Hne.
  destruct (m !! key'); reflexivity.
Qed.

(** ** The click handler, as one equation *)

Lemma prop_version_items_followMarks (env : Env) (st : gmap string JsVal) :
  prop (version_items env ∪ st) "followMarks" = prop st "followMarks".
Proof. apply prop_union_singleton_ne. discriminate. Qed.

Lemma onclick_eq (env : Env) (w : World) :
  onclick env w =
    {| result := Ok tt;
       world :=
         {| storage := if truthy (prop (storage w) "followMarkVersion")
                       then storage w
                       else version_items env ∪ storage w;
            pending := if truthy (prop (storage w) "followMarks")
                       then pending w
                       else pending w ++ [QueryCallback] |};
       events :=
         [StorageGet "followMarkVersion";
          ConsoleLog (prop (storage w) "followMarkVersion")] ++
         (if truthy (prop (storage w) "followMarkVersion") then []
          else [ConsoleLog (JObj (version_items env));
                StorageSet (version_items env)]) ++
         [StorageGet "followMarks";
          ConsoleLog (prop (storage w) "followMarks")] ++
         (if truthy (prop (storage w) "followMarks") then []
          else [TabsQuery]) |}.
Proof.
  destruct w as [st pd].
  unfold onclick, bind. rewrite getStorage_eq.
  cbn -[prop truthy union version_items singletonM].
  destruct (truthy (prop st "followMarkVersion")).
  - cbn -[prop truthy union version_items singletonM]. rewrite !prop_get.
    destruct (truthy (prop st "followMarks")); reflexivity.
  - cbn -[prop truthy union version_items singletonM].
    fold (version_items env). rewrite !prop_get.
    rewrite !prop_version_items_followMarks.
    destruct (truthy (prop st "followMarks")); reflexivity.
Qed.

(** ** The mark builder's callback *)

Lemma storage_writes_app (evs evs' : list Event) :
  storage_writes (evs ++ evs') =
    (storage_writes evs ++ storage_writes evs')%list.
Proof.
  induction evs as [| ev evs IH]; [reflexivity |].
  destruct ev; cbn; rewrite ?IH; reflexivity.
Qed.

Lemma MakeMark_calls_app (evs evs' : list Event) :
  MakeMark_calls (evs ++ evs') = MakeMark_calls evs + MakeMark_calls evs'.
Proof.
  induction evs as [| ev evs IH]; [reflexivity |].
  destruct ev; cbn; rewrite ?IH; reflexivity.
Qed.

Lemma run_task_no_tab (env : Env) (w : World) :
  active_tabs env = [] ->
  run_task env QueryCallback w = {| result := Ok tt; world := w; events := [] |}.
Proof. intros H. unfold run_task, query_callback. rewrite H. reflexivity. Qed.

(** With an active tab, the callback extracts its info and writes the
    one-entry mapping; nothing else changes. *)
Lemma run_task_tab (env : Env) (tab : Tab) (rest : list Tab) (w : World) :
  active_tabs env = tab :: rest ->
  exists info,
    result (getInfoFromTab env tab fresh) = Ok info /\
    url info = or_empty (tab_url tab) /\
    result (run_task env QueryCallback w) = Ok tt /\
    world (run_task env QueryCallback w) =
      {| storage := mark_items env info ∪ storage w; pending := pending w |} /\
    storage_writes (events (run_task env QueryCallback w)) =
      [mark_items env info] /\
    MakeMark_calls (events (run_task env QueryCallback w)) = 0.
Proof.
  intros Htabs.
  destruct (getInfoFromTab_total env tab w)
    as (info & Hres & Hfresh & Hworld & Hwrites & Hcalls & Hurl).
  exists info. split; [exact Hfresh |]. split; [exact Hurl |].
  unfold run_task, query_callback, try_catch, bind. rewrite Htabs, Hres.
  cbn -[union singletonM]. rewrite Hworld.
  repeat split.
  - rewrite storage_writes_app, Hwrites. reflexivity.
  - rewrite MakeMark_calls_app, Hcalls. reflexivity.
Qed.

(** Writing the one-entry mapping replaces whatever mapping the slot
    held, and touches no other slot. *)
Lemma lookup_mark_items_followMarks
    (env : Env) (info : TabInfo) (st : gmap string JsVal) :
  (mark_items env info ∪ st) !! "followMarks" =
    Some (JObj {[ url info := mark (generateUniqueId env) (favIconUrl info) ]}).
Proof.
  unfold mark_items. rewrite lookup_union, lookup_singleton_eq.
  destruct (st !! "followMarks"); reflexivity.
Qed.

Lemma lookup_mark_items_other
    (env : Env) (info : TabInfo) (st : gmap string JsVal) (key : string) :
  key <> "followMarks" -> (mark_items env info ∪ st) !! key = st !! key.
Proof.
  intros Hne. unfold mark_items.
  rewrite lookup_union, lookup_singleton_ne by congruence.
  destruct (st !! key); reflexivity.
Qed.

Lemma lookup_version_items_followMarkVersion
    (env : Env) (st : gmap string JsVal) :
  (version_items env ∪ st) !! "followMarkVersion" =
    Some (JStr (manifest_version env)).
Proof.
  unfold version_items. rewrite lookup_union, lookup_singleton_eq.
  destruct (st !! "followMarkVersion"); reflexivity.
Qed.

Lemma lookup_version_items_other
    (env : Env) (st : gmap string JsVal) (key : string) :
  key <> "followMarkVersion" -> (version_items env ∪ st) !! key = st !! key.
Proof.
  intros Hne. unfold version_items.
  rewrite lookup_union, lookup_singleton_ne by congruence.
  destruct (st !! key); reflexivity.
Qed.

Lemma mark_items_twice
    (env : Env) (info : TabInfo) (st : gmap string JsVal) :
  mark_items env info ∪ (mark_items env info ∪ st) = mark_items env info ∪ st.
Proof. rewrite (assoc_L (∪)), (idemp_L (∪)). reflexivity. Qed.

(** Draining a queue under one answer of the platform: every callback
    writes the same one-entry mapping. *)
Lemma run_tasks_tab
    (env : Env) (tab : Tab) (rest : list Tab) (info : TabInfo) :
  active_tabs env = tab :: rest ->
  result (getInfoFromTab env tab fresh) = Ok info ->
  forall (ts : list Task) (w : World),
    world (run_tasks env ts w) =
      {| storage := match ts with
                    | [] => storage w
                    | _ :: _ => mark_items env info ∪ storage w
                    end;
         pending := pending w |}.
Proof.
  intros Htabs Hinfo ts.
  induction ts as [| t ts IH]; intros w.
  - destruct w; reflexivity.
  - destruct t.
    destruct (run_task_tab env tab rest w Htabs)
      as (info' & Hinfo' & _ & Hres & Hworld & _).
    assert (info' = info) as -> by congruence.
    cbn [run_tasks]. unfold bind. rewrite Hres. cbn [world].
    rewrite IH, Hworld. cbn [storage pending].
    destruct ts; [reflexivity |]. rewrite mark_items_twice. reflexivity.
Qed.

(** [MakeMark] followed by its callback: the store gets the one-entry
    mapping of the active tab, and the queue is empty again. *)
Lemma MakeMark_drain_world
    (env : Env) (tab : Tab) (rest : list Tab) (info : TabInfo) (w : World) :
  active_tabs env = tab :: rest ->
  result (getInfoFromTab env tab fresh) = Ok info ->
  world ((MakeMark;; drain env) w) =
    {| storage := mark_items env info ∪ storage w; pending := [] |}.
Proof.
  intros Htabs Hinfo. unfold bind, MakeMark, tabs_query, drain.
  cbn [result world storage pending].
  rewrite (run_tasks_tab env tab rest info Htabs Hinfo).
  cbn [storage pending]. destruct (pending w); reflexivity.
Qed.

(** After the write for "https://a", the mapping that held
    "https://b" holds "https://a" only. *)
Lemma MakeMark_write_drops_other_entry :
  "https://a" <> "https://b" /\
  storage store_with_b !! "followMarks" =
    Some (JObj {[ "https://b" := mark_b ]}) /\
  exists m : gmap string JsVal,
    storage (world ((MakeMark;; drain env_a) store_with_b)) !! "followMarks" =
      Some (JObj m) /\
    is_Some (m !! "https://a") /\
    m !! "https://b" = None.
Proof.
  split; [discriminate |]. split; [apply lookup_singleton_eq |].
  eexists. split.
  - rewrite (MakeMark_drain_world env_a tab_a [] _ store_with_b eq_refl eq_refl).
    cbn [storage]. apply lookup_mark_items_followMarks.
  - split.
    + cbn [url]. rewrite lookup_singleton_eq. eexists; reflexivity.
    + cbn [url]. apply lookup_singleton_ne. discriminate.
Qed.

(** C2 (amended). On a store that merges shallowly, the write of
    [MakeMark] for the active tab's URL replaces the [followMarks] slot
    by the mapping with that one entry: an entry the slot held for any
    other URL is not in it. Every other slot, such as
    [followMarkVersion], keeps its value. *)
Theorem MakeMark_write_replaces_followMarks
    (env : Env) (tab : Tab) (rest : list Tab) (w : World)
    (Htabs : active_tabs env = tab :: rest) :
  exists (info : TabInfo) (m : gmap string JsVal),
    result (getInfoFromTab env tab fresh) = Ok info /\
    url info = or_empty (tab_url tab) /\
    storage (world ((MakeMark;; drain env) w)) !! "followMarks" =
      Some (JObj m) /\
    m = {[ url info := mark (generateUniqueId env) (favIconUrl info) ]} /\
    (forall b : string, b <> url info -> m !! b = None) /\
    (forall key : string,
       key <> "followMarks" ->
       storage (world ((MakeMark;; drain env) w)) !! key = storage w !! key).
Proof.
  destruct (getInfoFromTab_total env tab fresh)
    as (info & Hinfo & _ & _ & _ & _ & Hurl).
  exists info. eexists. split; [exact Hinfo |]. split; [exact Hurl |].
  rewrite (MakeMark_drain_world env tab rest info w Htabs Hinfo).
  cbn [storage]. split; [apply lookup_mark_items_followMarks |].
  split; [reflexivity |]. split.
  - intros b Hb. apply lookup_singleton_ne. congruence.
  - intros key Hkey. apply lookup_mark_items_other. exact Hkey.
Qed.

Lemma MakeMark_write_replaces_followMarks_witness :
  exists (info : TabInfo) (m : gmap string JsVal),
    result (getInfoFromTab env_a tab_a fresh) = Ok info /\
    url info = or_empty (tab_url tab_a) /\
    storage (world ((MakeMark;; drain env_a) store_with_b)) !! "followMarks" =
      Some (JObj m) /\
    m = {[ url info := mark (generateUniqueId env_a) (favIconUrl info) ]} /\
    (forall b : string, b <> url info -> m !! b = None) /\
    (forall key : string,
       key <> "followMarks" ->
       storage (world ((MakeMark;; drain env_a) store_with_b)) !! key =
         storage store_with_b !! key).
Proof.
  apply (MakeMark_write_replaces_followMarks env_a tab_a [] store_with_b).
  reflexivity.
Defined.

(** ** The popup click *)

Lemma click_eq (env : Env) (w : World) :
  click env w =
    {| result := result (drain env (world (onclick env w)));
       world := world (drain env (world (onclick env w)));
       events := events (onclick env w) ++
                 events (drain env (world (onclick env w))) |}.
Proof. unfold click, bind. rewrite onclick_eq. reflexivity. Qed.

Lemma prop_absent (st : gmap string JsVal) (key : string) :
  st !! key = None -> prop st key = JUndefined.
Proof. unfold prop. intros ->. reflexivity. Qed.

Lemma prop_present (st : gmap string JsVal) (key : string) (v : JsVal) :
  st !! key = Some v -> prop st key = v.
Proof. unfold prop. intros ->. reflexivity. Qed.

(** C3. From any state in which both slots are absent, and with an
    active tab, one complete run of the click handler (the handler and
    the tab-query callback it queues) leaves [followMarkVersion] equal to
    the manifest version and [followMarks] holding exactly one entry,
    keyed by the active tab's URL (the empty string when the tab reports
    none). *)
Theorem first_click_populates_both_slots
    (env : Env) (tab : Tab) (rest : list Tab) (w : World)
    (Hversion : storage w !! "followMarkVersion" = None)
    (Hmarks : storage w !! "followMarks" = None)
    (Htabs : active_tabs env = tab :: rest) :
  storage (world (click env w)) !! "followMarkVersion" =
    Some (JStr (manifest_version env)) /\
  exists (info : TabInfo) (m : gmap string JsVal),
    result (getInfoFromTab env tab fresh) = Ok info /\
    storage (world (click env w)) !! "followMarks" = Some (JObj m) /\
    m = {[ or_empty (tab_url tab) :=
             mark (generateUniqueId env) (favIconUrl info) ]} /\
    size m = 1 /\
    (forall u : string, tab_url tab = Some u -> is_Some (m !! u)).
Proof.
  destruct (getInfoFromTab_total env tab fresh)
    as (info & Hinfo & _ & _ & _ & _ & Hurl).
  assert (Hworld : world (click env w) =
            {| storage := mark_items env info ∪ (version_items env ∪ storage w);
               pending := [] |}).
  { rewrite click_eq. cbn [world]. rewrite onclick_eq. cbn [world].
    rewrite (prop_absent _ _ Hversion), (prop_absent _ _ Hmarks).
    cbn [truthy]. unfold drain. cbn [storage pending].
    rewrite (run_tasks_tab env tab rest info Htabs Hinfo).
    cbn [storage pending]. destruct (pending w); reflexivity. }
  rewrite Hworld. cbn [storage]. split.
  - rewrite lookup_mark_items_other by discriminate.
    apply lookup_version_items_followMarkVersion.
  - exists info. eexists. split; [exact Hinfo |].
    split; [apply lookup_mark_items_followMarks |].
    rewrite Hurl. split; [reflexivity |].
    split; [apply map_size_singleton |].
    intros u Hu. rewrite Hu, or_empty_Some, lookup_singleton_eq.
    eexists; reflexivity.
Qed.

Lemma first_click_populates_both_slots_witness :
  storage (world (click env_a fresh)) !! "followMarkVersion" =
    Some (JStr "1.0") /\
  exists (info : TabInfo) (m : gmap string JsVal),
    result (getInfoFromTab env_a tab_a fresh) = Ok info /\
    storage (world (click env_a fresh)) !! "followMarks" = Some (JObj m) /\
    m = {[ or_empty (tab_url tab_a) :=
             mark (generateUniqueId env_a) (favIconUrl info) ]} /\
    size m = 1 /\
    (forall u : string, tab_url tab_a = Some u -> is_Some (m !! u)).
Proof.
  apply (first_click_populates_both_slots env_a tab_a [] fresh);
    reflexivity.
Defined.

(** Callbacks never call [MakeMark]. *)
Lemma run_task_no_MakeMark (env : Env) (t : Task) (w : World) :
  result (run_task env t w) = Ok tt /\
  MakeMark_calls (events (run_task env t w)) = 0.
Proof.
  destruct t. destruct (active_tabs env) as [| tab rest] eqn:Htabs.
  - rewrite (run_task_no_tab env w Htabs). split; reflexivity.
  - destruct (run_task_tab env tab rest w Htabs)
      as (info & _ & _ & Hres & _ & _ & Hcalls).
    split; assumption.
Qed.

Lemma run_tasks_no_MakeMark (env : Env) (ts : list Task) :
  forall w : World, MakeMark_calls (events (run_tasks env ts w)) = 0.
Proof.
  induction ts as [| t ts IH]; intros w; [reflexivity |].
  destruct (run_task_no_MakeMark env t w) as [Hres Hcalls].
  cbn [run_tasks]. unfold bind. rewrite Hres. cbn [events].
  rewrite MakeMark_calls_app, Hcalls, IH. reflexivity.
Qed.

Lemma drain_idle (env : Env) (w : World) :
  pending w = [] ->
  drain env w = {| result := Ok tt; world := w; events := [] |}.
Proof. destruct w as [st pd]. cbn. intros ->. reflexivity. Qed.

(** C4. In a state whose [followMarkVersion] slot holds a version string
    (non-empty, as every manifest version is) and whose [followMarks]
    slot holds a mapping, a run of the click handler writes to neither
    slot, does not call [MakeMark], and leaves the state as it was; with
    no callback in flight, so does the complete run. *)
Theorem populated_click_is_noop
    (env : Env) (w : World) (v : string) (m : gmap string JsVal)
    (Hversion : storage w !! "followMarkVersion" = Some (JStr v))
    (Hnonempty : v <> "")
    (Hmarks : storage w !! "followMarks" = Some (JObj m)) :
  (world (onclick env w) = w /\
   storage_writes (events (onclick env w)) = [] /\
   MakeMark_calls (events (onclick env w)) = 0) /\
  (pending w = [] ->
   world (click env w) = w /\
   storage_writes (events (click env w)) = []).
Proof.
  assert (Hclick : world (onclick env w) = w /\
                   storage_writes (events (onclick env w)) = [] /\
                   MakeMark_calls (events (onclick env w)) = 0).
  { rewrite onclick_eq. cbn [world events].
    rewrite (prop_present _ _ _ Hversion), (prop_present _ _ _ Hmarks).
    rewrite (truthy_JStr v Hnonempty). cbn [truthy].
    destruct w; repeat split; reflexivity. }
  split; [exact Hclick |].
  intros Hidle. destruct Hclick as (Hw & Hwrites & _).
  rewrite click_eq. cbn [world events]. rewrite Hw.
  rewrite (drain_idle env w Hidle). cbn [world events].
  rewrite app_nil_r. split; [reflexivity | exact Hwrites].
Qed.

Lemma populated_click_is_noop_witness :
  world (click env_a store_populated) = store_populated /\
  storage_writes (events (click env_a store_populated)) = [].
Proof.
  apply (populated_click_is_noop env_a store_populated "1.0"
           {[ "https://b" := mark_b ]}).
  - reflexivity.
  - discriminate.
  - reflexivity.
  - reflexivity.
Defined.

(** ** Reachable states *)

(** The program only ever stores a mapping in [followMarks]. *)
Lemma reachable_followMarks (w : World) :
  reachable w ->
  storage w !! "followMarks" = None \/
  exists m, storage w !! "followMarks" = Some (JObj m).
Proof.
  induction 1 as [| env w Hreach IH | env w t ts Hreach IH Hpending].
  - left. apply lookup_empty.
  - rewrite onclick_eq. cbn [world storage].
    destruct (truthy (prop (storage w) "followMarkVersion")); [exact IH |].
    rewrite lookup_version_items_other by discriminate. exact IH.
  - destruct t. destruct (active_tabs env) as [| tab rest] eqn:Htabs.
    + rewrite (run_task_no_tab env _ Htabs). exact IH.
    + destruct (run_task_tab env tab rest
                  {| storage := storage w; pending := ts |} Htabs)
        as (info & _ & _ & _ & Hworld & _).
      rewrite Hworld. cbn [storage]. right.
      eexists. apply lookup_mark_items_followMarks.
Qed.

(** C10. In every state whose [followMarks] slot holds a mapping, the
    empty mapping included and reachable or not, a click never calls
    [MakeMark], neither in the handler nor in the callbacks that run
    after it; and in a reachable state, a click that does call
    [MakeMark] started with the [followMarks] slot absent. *)
Theorem MakeMark_only_when_followMarks_absent (env : Env) (w : World) :
  (forall m : gmap string JsVal,
     storage w !! "followMarks" = Some (JObj m) ->
     MakeMark_calls (events (click env w)) = 0 /\
     MakeMark_calls (events (onclick env w)) = 0 /\
     pending (world (onclick env w)) = pending w) /\
  (storage w !! "followMarks" = Some (JObj ∅) ->
   MakeMark_calls (events (click env w)) = 0) /\
  (reachable w ->
   MakeMark_calls (events (click env w)) <> 0 ->
   storage w !! "followMarks" = None) /\
  (storage w !! "followMarks" = None ->
   MakeMark_calls (events (click env w)) = 1).
Proof.
  assert (Hhandler : MakeMark_calls (events (onclick env w)) =
                     if truthy (prop (storage w) "followMarks") then 0 else 1).
  { rewrite onclick_eq. cbn [events]. rewrite !MakeMark_calls_app.
    destruct (truthy (prop (storage w) "followMarkVersion")),
      (truthy (prop (storage w) "followMarks")); reflexivity. }
  assert (Hcalls : MakeMark_calls (events (click env w)) =
                   if truthy (prop (storage w) "followMarks") then 0 else 1).
  { rewrite click_eq. cbn [events].
    rewrite MakeMark_calls_app. unfold drain at 1.
    rewrite run_tasks_no_MakeMark, Hhandler. apply Nat.add_0_r. }
  assert (Hobj : forall m : gmap string JsVal,
            storage w !! "followMarks" = Some (JObj m) ->
            MakeMark_calls (events (click env w)) = 0).
  { intros m Hm. rewrite Hcalls, (prop_present _ _ _ Hm). reflexivity. }
  split; [| split; [apply Hobj | split]].
  - intros m Hm. split; [exact (Hobj m Hm) |].
    rewrite Hhandler, onclick_eq. cbn [world pending].
    rewrite (prop_present _ _ _ Hm). split; reflexivity.
  - intros Hreach Hcalled.
    destruct (reachable_followMarks w Hreach) as [Hnone | [m Hm]];
      [exact Hnone |].
    elim Hcalled. exact (Hobj m Hm).
  - intros Hnone. rewrite Hcalls, (prop_absent _ _ Hnone). reflexivity.
Qed.

Lemma MakeMark_only_when_followMarks_absent_witness :
  MakeMark_calls (events (click env_a store_empty_mapping)) = 0 /\
  MakeMark_calls (events (click env_a store_with_b)) = 0 /\
  (reachable fresh /\
   (MakeMark_calls (events (click env_a fresh)) <> 0 ->
    storage fresh !! "followMarks" = None)) /\
  MakeMark_calls (events (click env_a fresh)) = 1.
Proof.
  destruct (MakeMark_only_when_followMarks_absent env_a store_empty_mapping)
    as (_ & Hempty & _ & _).
  destruct (MakeMark_only_when_followMarks_absent env_a store_with_b)
    as (Hobject & _ & _ & _).
  destruct (MakeMark_only_when_followMarks_absent env_a fresh)
    as (_ & _ & Hreach & Habsent).
  split; [exact (Hempty eq_refl) |].
  split; [exact (proj1 (Hobject {[ "https://b" := mark_b ]} eq_refl)) |].
  split; [split; [exact reach_fresh | exact (Hreach reach_fresh)] |].
  exact (Habsent eq_refl).
Defined.

(** * Further properties of the code *)

(** ** The storage accessor *)

(** X1. Reading a slot after a write gives the written value when the
    write named the slot, and what the store held before otherwise;
    reading changes nothing and writes nothing. *)
Theorem writeStorage_then_getStorage
    (items : gmap string JsVal) (key : string) (w : World) :
  result (getStorage key (world (writeStorage items w))) =
    Ok (match items !! key with
        | Some v => v
        | None => prop (storage w) key
        end) /\
  world (getStorage key w) = w /\
  storage_writes (events (getStorage key w)) = [].
Proof.
  rewrite !getStorage_eq, writeStorage_eq. cbn [result world events storage].
  split; [| split; reflexivity].
  f_equal. unfold prop. rewrite lookup_union.
  destruct (items !! key), (storage w !! key); reflexivity.
Qed.

(** X2. Two writes that name different slots commute: the store ends
    the same in either order, each slot holding its written value. *)
Theorem writeStorage_disjoint_commute
    (a b : gmap string JsVal) (w : World)
    (Hdisjoint : a ##ₘ b) :
  storage (world ((writeStorage a;; writeStorage b) w)) =
  storage (world ((writeStorage b;; writeStorage a) w)) /\
  (forall key v, a !! key = Some v ->
     storage (world ((writeStorage a;; writeStorage b) w)) !! key = Some v).
Proof.
  unfold bind. rewrite !writeStorage_eq. cbn [result world storage].
  rewrite !(assoc_L (∪)), (map_union_comm b a) by (symmetry; exact Hdisjoint).
  split; [reflexivity |].
  intros key v Ha. rewrite <- (assoc_L (∪)).
  apply lookup_union_Some_l. exact Ha.
Qed.

Lemma writeStorage_disjoint_commute_witness :
  storage (world ((writeStorage (version_items env_a);;
                   writeStorage {[ "followMarks" := JObj ∅ ]}) fresh)) =
  storage (world ((writeStorage {[ "followMarks" := JObj ∅ ]};;
                   writeStorage (version_items env_a)) fresh)).
Proof.
  apply (writeStorage_disjoint_commute (version_items env_a)
           {[ "followMarks" := JObj ∅ ]} fresh).
  apply map_disjoint_singleton_l. apply lookup_singleton_ne. discriminate.
Defined.

(** ** The tab info extractor *)

(** X3. [getInfoFromTab] throws only when it is called with
    [undefined], as the callback of [MakeMark] calls it when the query
    found no tab: a TypeError, before any platform call. On every tab
    it returns, changes nothing in the store and writes nothing; the url
    and title are the tab's, or empty; and the favicon is empty, or the
    tab's own, or the href of the first link of the tab's page whose
    [rel] contains "icon", letter case aside. *)
Theorem getInfoFromTab_throws_only_on_undefined
    (env : Env) (tab : Tab) (foundTabs : list Tab) (w : World) :
  getInfoFromTab_call env None w =
    {| result :=
         Throw (TypeError "Cannot read properties of undefined (reading 'url')");
       world := w; events := [] |} /\
  query_callback env foundTabs w =
    (info <- getInfoFromTab_call env (head foundTabs);;
     writeStorage (mark_items env info)) w /\
  exists info : TabInfo,
    result (getInfoFromTab_call env (Some tab) w) = Ok info /\
    world (getInfoFromTab_call env (Some tab) w) = w /\
    storage_writes (events (getInfoFromTab_call env (Some tab) w)) = [] /\
    url info = or_empty (tab_url tab) /\
    title info = or_empty (tab_title tab) /\
    (favIconUrl info = "" \/
     favIconUrl info = or_empty (tab_favIconUrl tab) \/
     exists tabId before link after,
       tab_id tab = Some tabId /\
       page_of env tabId = Some (before ++ link :: after)%list /\
       Forall (fun l => includes (ascii_lowercase (rel l)) "icon" = false)
         before /\
       includes (ascii_lowercase (rel link)) "icon" = true /\
       favIconUrl info = href link).
Proof.
  split; [reflexivity |].
  split; [destruct foundTabs; reflexivity |].
  cbn [getInfoFromTab_call]. unfold getInfoFromTab.
  destruct (startsWith (or_empty (tab_favIconUrl tab)) "data:");
    [| eexists; repeat split; right; left; reflexivity].
  destruct (tab_id tab) as [tabId |];
    [| eexists; repeat split; left; reflexivity].
  destruct (negb (truthy (JNum tabId)));
    [eexists; repeat split; left; reflexivity |].
  unfold bind, try_catch, executeScript; cbn.
  destruct (page_of env tabId) as [doc |] eqn:Hpage; cbn.
  - unfold injected_func.
    destruct (querySelector_link_icon doc) as [link |] eqn:Hlink.
    + destruct (negb (String.eqb (href link) "")); cbn.
      * destruct (find_Some_first _ _ _ Hlink)
          as (before & after & -> & Hbefore & Hmatch).
        eexists; repeat split. right; right.
        exists tabId, before, link, after. repeat split; assumption.
      * eexists; repeat split. right; left; reflexivity.
    + cbn. eexists; repeat split. right; left; reflexivity.
  - eexists; repeat split. right; left; reflexivity.
Qed.

(** X4. A script is injected exactly when the favicon is a data URI and
    the tab has a non-zero id, and then once, into that tab. *)
Theorem getInfoFromTab_injections (env : Env) (tab : Tab) (w : World) :
  script_injections (events (getInfoFromTab env tab w)) =
    if startsWith (or_empty (tab_favIconUrl tab)) "data:" then
      match tab_id tab with
      | Some tabId => if truthy (JNum tabId) then [tabId] else []
      | None => []
      end
    else [].
Proof.
  unfold getInfoFromTab.
  destruct (startsWith (or_empty (tab_favIconUrl tab)) "data:");
    [| reflexivity].
  destruct (tab_id tab) as [tabId |]; [| reflexivity].
  destruct (truthy (JNum tabId)); [| reflexivity].
  unfold bind, try_catch, executeScript; cbn.
  destruct (page_of env tabId) as [doc |]; cbn; [| reflexivity].
  destruct (negb (String.eqb (injected_func doc) "")); reflexivity.
Qed.

(** X5. A data-URI favicon on a tab that has no id, or the id 0, comes
    back as the empty string, with no platform call made. *)
Theorem getInfoFromTab_without_id
    (env : Env) (tab : Tab) (s : string) (w : World)
    (Hfav : tab_favIconUrl tab = Some s)
    (Hdata : startsWith s "data:" = true)
    (Hid : tab_id tab = None \/ tab_id tab = Some 0%Z) :
  result (getInfoFromTab env tab w) =
    Ok {| url := or_empty (tab_url tab);
          title := or_empty (tab_title tab);
          favIconUrl := "" |} /\
  events (getInfoFromTab env tab w) = [].
Proof.
  rewrite (getInfoFromTab_no_id env tab s w Hfav Hdata Hid).
  split; reflexivity.
Qed.

Lemma getInfoFromTab_without_id_witness :
  result (getInfoFromTab env_rejected tab_no_id fresh) =
    Ok {| url := "https://x/"; title := "X"; favIconUrl := "" |} /\
  events (getInfoFromTab env_rejected tab_no_id fresh) = [].
Proof.
  apply (getInfoFromTab_without_id env_rejected tab_no_id data_uri fresh).
  - reflexivity.
  - reflexivity.
  - left. reflexivity.
Defined.

(** X6. A data-URI favicon on a tab with a non-zero id stays the data
    URI when the injection is rejected, when no link of the page has a
    [rel] containing "icon" (letter case aside), and when the first such
    link has an empty href; a rejection is logged to the console. *)
Theorem getInfoFromTab_keeps_data_uri
    (env : Env) (tab : Tab) (s : string) (tabId : Z) (w : World)
    (Hfav : tab_favIconUrl tab = Some s)
    (Hdata : startsWith s "data:" = true)
    (Hid : tab_id tab = Some tabId)
    (Hnz : tabId <> 0%Z)
    (Hfail :
       page_of env tabId = None \/
       (exists doc,
          page_of env tabId = Some doc /\
          Forall (fun l => includes (ascii_lowercase (rel l)) "icon" = false)
            doc) \/
       (exists before link after,
          page_of env tabId = Some (before ++ link :: after)%list /\
          Forall (fun l => includes (ascii_lowercase (rel l)) "icon" = false)
            before /\
          includes (ascii_lowercase (rel link)) "icon" = true /\
          href link = "")) :
  result (getInfoFromTab env tab w) =
    Ok {| url := or_empty (tab_url tab);
          title := or_empty (tab_title tab);
          favIconUrl := s |} /\
  (page_of env tabId = None ->
   events (getInfoFromTab env tab w) =
     [ExecuteScript tabId; ConsoleError "Failed to fetch favicon:"]).
Proof.
  split.
  - apply (getInfoFromTab_lookup_failed env tab s tabId w); try assumption.
    destruct Hfail as [Hnone | [(doc & Hpage & Hall) |
                                (before & link & after & Hpage & Hb & Hl & Hh)]].
    + left. exact Hnone.
    + right. exists doc. split; [exact Hpage |].
      unfold injected_func, querySelector_link_icon.
      rewrite (find_all_None (fun l => rel_matches_icon (rel l)) doc Hall).
      reflexivity.
    + right. eexists. split; [exact Hpage |].
      unfold injected_func, querySelector_link_icon.
      rewrite (find_first (fun l => rel_matches_icon (rel l))
                 before after link Hb Hl).
      exact Hh.
  - intros Hpage. unfold getInfoFromTab.
    rewrite Hfav, or_empty_Some, Hdata, Hid, (truthy_JNum _ Hnz). cbn.
    unfold bind, try_catch, executeScript; cbn. rewrite Hpage. reflexivity.
Qed.

Lemma getInfoFromTab_keeps_data_uri_witness :
  result (getInfoFromTab env_no_link tab_inline fresh) =
    Ok {| url := "https://x/"; title := "X"; favIconUrl := data_uri |}.
Proof.
  apply (getInfoFromTab_keeps_data_uri env_no_link tab_inline data_uri 7 fresh).
  - reflexivity.
  - reflexivity.
  - reflexivity.
  - discriminate.
  - right. left. exists page_without_icon.
    split; [reflexivity |]. constructor; [reflexivity | constructor].
Defined.

(** ** Clicks and callbacks *)

Lemma run_tasks_no_tab (env : Env) (ts : list Task) (w : World) :
  active_tabs env = [] ->
  run_tasks env ts w = {| result := Ok tt; world := w; events := [] |}.
Proof.
  intros Htabs. revert w. induction ts as [| t ts IH]; intros w;
    [reflexivity |].
  destruct t. cbn [run_tasks]. unfold bind.
  rewrite (run_task_no_tab env w Htabs). cbn [result world events].
  rewrite IH. reflexivity.
Qed.

(** Callbacks leave every slot but [followMarks] alone. *)
Lemma run_tasks_other_slots (env : Env) (key : string) (ts : list Task) :
  key <> "followMarks" ->
  forall w : World,
    storage (world (run_tasks env ts w)) !! key = storage w !! key.
Proof.
  intros Hkey. destruct (active_tabs env) as [| tab rest] eqn:Htabs.
  - intros w. rewrite (run_tasks_no_tab env ts w Htabs). reflexivity.
  - intros w.
    destruct (getInfoFromTab_total env tab fresh)
      as (info & Hinfo & _).
    rewrite (run_tasks_tab env tab rest info Htabs Hinfo). cbn [storage].
    destruct ts; [reflexivity |].
    apply lookup_mark_items_other. exact Hkey.
Qed.

Lemma run_tasks_writes
    (env : Env) (tab : Tab) (rest : list Tab) (info : TabInfo) :
  active_tabs env = tab :: rest ->
  result (getInfoFromTab env tab fresh) = Ok info ->
  forall (ts : list Task) (w : World),
    storage_writes (events (run_tasks env ts w)) =
      map (fun _ => mark_items env info) ts.
Proof.
  intros Htabs Hinfo ts.
  induction ts as [| t ts IH]; intros w; [reflexivity |].
  destruct t.
  destruct (run_task_tab env tab rest w Htabs)
    as (info' & Hinfo' & _ & Hres & _ & Hwrites & _).
  assert (info' = info) as -> by congruence.
  cbn [run_tasks map]. unfold bind. rewrite Hres. cbn [events].
  rewrite storage_writes_app, Hwrites, IH. reflexivity.
Qed.

(** X7. A click while no tab is active, from a store without the
    [followMarks] slot: the callback's failure is dropped, the click
    completes, nothing is stored under [followMarks], and the next
    click calls [MakeMark] again. *)
Theorem click_without_active_tab
    (env env' : Env) (w : World)
    (Hmarks : storage w !! "followMarks" = None)
    (Htabs : active_tabs env = []) :
  result (click env w) = Ok tt /\
  MakeMark_calls (events (click env w)) = 1 /\
  storage (world (click env w)) !! "followMarks" = None /\
  pending (world (click env w)) = [] /\
  MakeMark_calls (events (click env' (world (click env w)))) = 1.
Proof.
  assert (Hworld : world (click env w) =
            {| storage := if truthy (prop (storage w) "followMarkVersion")
                          then storage w
                          else version_items env ∪ storage w;
               pending := [] |}).
  { rewrite click_eq. cbn [world]. unfold drain.
    rewrite (run_tasks_no_tab env _ _ Htabs). cbn [world].
    rewrite onclick_eq. reflexivity. }
  assert (Hnone : storage (world (click env w)) !! "followMarks" = None).
  { rewrite Hworld. cbn [storage].
    destruct (truthy (prop (storage w) "followMarkVersion")); [exact Hmarks |].
    rewrite lookup_version_items_other by discriminate. exact Hmarks. }
  assert (Hcalls : forall e w0, storage w0 !! "followMarks" = None ->
            MakeMark_calls (events (click e w0)) = 1).
  { intros e w0 H0. rewrite click_eq. cbn [events].
    rewrite MakeMark_calls_app. unfold drain at 1.
    rewrite run_tasks_no_MakeMark, onclick_eq. cbn [events].
    rewrite !MakeMark_calls_app, (prop_absent _ _ H0). cbn [truthy].
    destruct (truthy (prop (storage w0) "followMarkVersion")); reflexivity. }
  split.
  { rewrite click_eq. cbn [result]. unfold drain.
    rewrite (run_tasks_no_tab env _ _ Htabs). reflexivity. }
  split; [apply Hcalls; exact Hmarks |].
  split; [exact Hnone |].
  split; [rewrite Hworld; reflexivity |].
  apply Hcalls. exact Hnone.
Qed.

Lemma click_without_active_tab_witness :
  result (click env_no_tab fresh) = Ok tt /\
  MakeMark_calls (events (click env_no_tab fresh)) = 1 /\
  storage (world (click env_no_tab fresh)) !! "followMarks" = None /\
  pending (world (click env_no_tab fresh)) = [] /\
  MakeMark_calls (events (click env_a (world (click env_no_tab fresh)))) = 1.
Proof.
  apply (click_without_active_tab env_no_tab env_a fresh); reflexivity.
Defined.

(** X8. The handler alone, on a store with neither slot: it writes the
    version and nothing else, and returns with the mark still unwritten
    and its callback queued. *)
Theorem onclick_returns_before_mark_is_stored
    (env : Env) (w : World)
    (Hversion : storage w !! "followMarkVersion" = None)
    (Hmarks : storage w !! "followMarks" = None) :
  result (onclick env w) = Ok tt /\
  storage_writes (events (onclick env w)) = [version_items env] /\
  storage (world (onclick env w)) !! "followMarks" = None /\
  pending (world (onclick env w)) = (pending w ++ [QueryCallback])%list.
Proof.
  rewrite onclick_eq. cbn [result world events storage pending].
  rewrite (prop_absent _ _ Hversion), (prop_absent _ _ Hmarks). cbn [truthy].
  repeat split.
  rewrite lookup_version_items_other by discriminate. exact Hmarks.
Qed.

Lemma onclick_returns_before_mark_is_stored_witness :
  result (onclick env_a fresh) = Ok tt /\
  storage_writes (events (onclick env_a fresh)) = [version_items env_a] /\
  storage (world (onclick env_a fresh)) !! "followMarks" = None /\
  pending (world (onclick env_a fresh)) = [QueryCallback].
Proof.
  apply (onclick_returns_before_mark_is_stored env_a fresh); reflexivity.
Defined.

(** X9. A second click handled after the first handler has returned
    and before either tab query answers, on a store that had neither
    slot: the second handler writes nothing and calls [MakeMark] again,
    so two callbacks are queued. When they run, each under the
    platform's answers of its own moment, each writes [followMarks]:
    the entry of the first is replaced by the entry of the second,
    whatever tabs and identifiers the two have. *)
Theorem second_click_before_callback
    (env1 env2 envA envB : Env) (tabA tabB : Tab) (restA restB : list Tab)
    (w : World)
    (Hversion : storage w !! "followMarkVersion" = None)
    (Hmarks : storage w !! "followMarks" = None)
    (Hidle : pending w = [])
    (Hnonempty : manifest_version env1 <> "")
    (HtabsA : active_tabs envA = tabA :: restA)
    (HtabsB : active_tabs envB = tabB :: restB) :
  let w1 := world (onclick env1 w) in
  let w2 := world (onclick env2 w1) in
  let first := run_task envA QueryCallback
                 {| storage := storage w2; pending := [QueryCallback] |} in
  let second := run_task envB QueryCallback
                  {| storage := storage (world first); pending := [] |} in
  pending w2 = [QueryCallback; QueryCallback] /\
  storage_writes (events (onclick env1 w)) = [version_items env1] /\
  storage_writes (events (onclick env2 w1)) = [] /\
  exists infoA infoB : TabInfo,
    result (getInfoFromTab envA tabA fresh) = Ok infoA /\
    result (getInfoFromTab envB tabB fresh) = Ok infoB /\
    storage_writes (events first) = [mark_items envA infoA] /\
    storage_writes (events second) = [mark_items envB infoB] /\
    storage (world first) !! "followMarks" =
      Some (JObj {[ or_empty (tab_url tabA) :=
                      mark (generateUniqueId envA) (favIconUrl infoA) ]}) /\
    storage (world second) !! "followMarks" =
      Some (JObj {[ or_empty (tab_url tabB) :=
                      mark (generateUniqueId envB) (favIconUrl infoB) ]}) /\
    storage (world second) !! "followMarkVersion" =
      Some (JStr (manifest_version env1)).
Proof.
  intros w1 w2 first second.
  destruct (onclick_returns_before_mark_is_stored env1 w Hversion Hmarks)
    as (_ & Hwrites1 & Hmarks1 & Hpending1).
  assert (Hversion1 : storage w1 !! "followMarkVersion" =
                        Some (JStr (manifest_version env1))).
  { subst w1. rewrite onclick_eq. cbn [world storage].
    rewrite (prop_absent _ _ Hversion). cbn [truthy].
    apply lookup_version_items_followMarkVersion. }
  assert (Hw2 : onclick env2 w1 =
            {| result := Ok tt;
               world := {| storage := storage w1;
                           pending := [QueryCallback; QueryCallback] |};
               events := events (onclick env2 w1) |}).
  { rewrite onclick_eq at 1. rewrite onclick_eq.
    rewrite (prop_present _ _ _ Hversion1).
    fold w1 in Hmarks1. rewrite (prop_absent _ _ Hmarks1).
    rewrite (truthy_JStr _ Hnonempty). cbn [truthy].
    fold w1 in Hpending1. rewrite Hpending1, Hidle. reflexivity. }
  split; [subst w2; rewrite Hw2; reflexivity |].
  split; [exact Hwrites1 |].
  split.
  { rewrite onclick_eq. cbn [events].
    rewrite (prop_present _ _ _ Hversion1), (truthy_JStr _ Hnonempty).
    destruct (truthy (prop (storage w1) "followMarks")); reflexivity. }
  assert (Hstorage2 : storage w2 = storage w1)
    by (subst w2; rewrite Hw2; reflexivity).
  destruct (run_task_tab envA tabA restA
              {| storage := storage w2; pending := [QueryCallback] |} HtabsA)
    as (infoA & HinfoA & HurlA & _ & HworldA & HwritesA & _).
  fold first in HworldA, HwritesA.
  destruct (run_task_tab envB tabB restB
              {| storage := storage (world first); pending := [] |} HtabsB)
    as (infoB & HinfoB & HurlB & _ & HworldB & HwritesB & _).
  fold second in HworldB, HwritesB.
  exists infoA, infoB.
  split; [exact HinfoA |]. split; [exact HinfoB |].
  split; [exact HwritesA |]. split; [exact HwritesB |].
  rewrite HworldB, HworldA. cbn [storage].
  rewrite <- HurlA, <- HurlB.
  split; [apply lookup_mark_items_followMarks |].
  split; [apply lookup_mark_items_followMarks |].
  rewrite !lookup_mark_items_other by discriminate.
  rewrite Hstorage2. exact Hversion1.
Qed.

Lemma second_click_before_callback_witness :
  pending (world (onclick env_later (world (onclick env_a fresh)))) =
    [QueryCallback; QueryCallback].
Proof.
  apply (second_click_before_callback env_a env_later env_a env_later
           tab_a tab_plain [] [] fresh);
    try reflexivity. discriminate.
Defined.

(** X10. Once the [followMarkVersion] slot holds a non-empty string, no
    click changes it, whatever the manifest then says and whatever
    callbacks are queued. *)
Theorem click_keeps_version
    (env : Env) (w : World) (v : string)
    (Hversion : storage w !! "followMarkVersion" = Some (JStr v))
    (Hnonempty : v <> "") :
  storage (world (click env w)) !! "followMarkVersion" = Some (JStr v).
Proof.
  rewrite click_eq. cbn [world]. unfold drain.
  rewrite run_tasks_other_slots by discriminate. cbn [storage].
  rewrite onclick_eq. cbn [world storage].
  rewrite (prop_present _ _ _ Hversion), (truthy_JStr _ Hnonempty).
  exact Hversion.
Qed.

Lemma click_keeps_version_witness :
  storage (world (click env_a store_populated)) !! "followMarkVersion" =
    Some (JStr "1.0").
Proof.
  apply (click_keeps_version env_a store_populated "1.0").
  - reflexivity.
  - discriminate.
Defined.

(** ** What the store can hold *)

(** X11. In every reachable state the store holds nothing but the two
    slots; [followMarkVersion], when set, is a string; [followMarks],
    when set, is a mapping with exactly one entry, whose value is a
    mark: no second mark is ever added. *)
Theorem reachable_store_shape (w : World) (Hreach : reachable w) :
  (forall key : string,
     key <> "followMarks" -> key <> "followMarkVersion" ->
     storage w !! key = None) /\
  (forall v : JsVal,
     storage w !! "followMarkVersion" = Some v -> exists s, v = JStr s) /\
  (forall v : JsVal,
     storage w !! "followMarks" = Some v ->
     exists page id icon, v = JObj {[ page := mark id icon ]}).
Proof.
  induction Hreach as [| env w Hreach IH | env w t ts Hreach IH Hpending].
  - repeat split; intros; cbn in *; rewrite ?lookup_empty in *;
      try discriminate; reflexivity.
  - destruct IH as (Hother & Hversion & Hmarks).
    rewrite onclick_eq. cbn [world storage].
    destruct (truthy (prop (storage w) "followMarkVersion"));
      [repeat split; assumption |].
    split; [| split].
    + intros key H1 H2. rewrite lookup_version_items_other by exact H2.
      apply Hother; assumption.
    + intros v. rewrite lookup_version_items_followMarkVersion.
      intros [= <-]. eexists; reflexivity.
    + intros v. rewrite lookup_version_items_other by discriminate.
      apply Hmarks.
  - destruct IH as (Hother & Hversion & Hmarks).
    destruct t. destruct (active_tabs env) as [| tab rest] eqn:Htabs.
    + rewrite (run_task_no_tab env _ Htabs). cbn [world storage].
      repeat split; assumption.
    + destruct (run_task_tab env tab rest
                  {| storage := storage w; pending := ts |} Htabs)
        as (info & _ & _ & _ & Hworld & _).
      rewrite Hworld. cbn [storage]. split; [| split].
      * intros key H1 H2. rewrite lookup_mark_items_other by exact H1.
        apply Hother; assumption.
      * intros v. rewrite lookup_mark_items_other by discriminate.
        apply Hversion.
      * intros v. rewrite lookup_mark_items_followMarks.
        intros [= <-]. do 3 eexists. reflexivity.
Qed.

Lemma reachable_store_shape_witness :
  exists page id icon,
    storage (world (click env_a fresh)) !! "followMarks" =
      Some (JObj {[ page := mark id icon ]}).
Proof.
  assert (Hreach : reachable (world (click env_a fresh))).
  { exact (reach_callback env_a (world (onclick env_a fresh)) QueryCallback []
             (reach_click env_a fresh reach_fresh) eq_refl). }
  destruct (reachable_store_shape _ Hreach) as (_ & _ & Hmarks).
  destruct (Hmarks _ eq_refl) as (page & id & icon & Hv).
  exists page, id, icon. rewrite <- Hv. reflexivity.
Defined.

(** ** Identifiers *)

Lemma all_digit36_app (a b : string) :
  all_digit36 (a ++ b) = all_digit36 a && all_digit36 b.
Proof.
  induction a as [| c a IH]; [reflexivity |].
  change (is_digit36 c && all_digit36 (a ++ b) =
          is_digit36 c && all_digit36 a && all_digit36 b).
  rewrite IH. apply andb_assoc.
Qed.

Lemma append_nonempty (a b : string) : a <> "" -> (a ++ b)%string <> "".
Proof. destruct a; [congruence | discriminate]. Qed.

(** X12. An identifier is never the empty string, even when the random
    draw renders without digits; and when the draw renders as "0."
    followed by base-36 digits, the identifier is made of base-36 digits
    only. *)
Theorem generateUniqueId_nonempty_base36 (env : Env) :
  generateUniqueId env <> "" /\
  (forall digits : string,
     Math_random36 env = ("0." ++ digits)%string ->
     all_digit36 digits = true ->
     all_digit36 (generateUniqueId env) = true).
Proof.
  unfold generateUniqueId. split.
  - apply append_nonempty. apply toString36_aux_nonempty.
  - intros digits Hrandom Hdigits.
    rewrite all_digit36_app, all_digit36_toString36, Hrandom. exact Hdigits.
Qed.

Lemma generateUniqueId_nonempty_base36_witness :
  all_digit36 (generateUniqueId env_a) = true.
Proof.
  destruct (generateUniqueId_nonempty_base36 env_a) as [_ H].
  apply (H "4fzyo82mvyr"); reflexivity.
Defined.

(** ** The emptiness checks *)

(** X13. On an object, [Check.isEmpty.object] answers whether it has no
    keys; it throws its own error exactly on the inputs that are
    neither [null] nor an object, arrays among them. *)
Theorem isEmpty_object_spec (v : JsVal) :
  (forall props : gmap string JsVal,
     v = JObj props ->
     exists b : bool,
       Check.isEmpty.object v = Ok b /\ (b = true <-> props = ∅)) /\
  (Check.isEmpty.object v =
     Throw (Error "isEmpty.object() input is not an Object.") <->
   v <> JNull /\ forall props, v <> JObj props).
Proof.
  split.
  - intros props ->. unfold Check.isEmpty.object. cbn.
    rewrite length_map. eexists. split; [reflexivity |].
    rewrite Nat.eqb_eq, length_zero_iff_nil. apply map_to_list_empty_iff.
  - destruct v; cbn; split;
      try (intros _; split; [discriminate | intros; discriminate]);
      try discriminate; try reflexivity.
    + intros [H _]. congruence.
    + intros [_ H]. exfalso. exact (H props eq_refl).
Qed.

Lemma isEmpty_object_spec_witness :
  exists b : bool,
    Check.isEmpty.object (JObj {[ "id" := JStr "a" ]}) = Ok b /\
    (b = true <-> ({[ "id" := JStr "a" ]} : gmap string JsVal) = ∅).
Proof.
  destruct (isEmpty_object_spec (JObj {[ "id" := JStr "a" ]})) as [H _].
  exact (H _ eq_refl).
Defined.

(** X14. [Check.isEmpty.array] answers on arrays only, and
    [Check.isEmpty.string] on strings only: [true] for the empty one,
    [false] for any other, and their own error for every other input. *)
Theorem isEmpty_array_string_spec (v : JsVal) :
  Check.isEmpty.array v =
    match v with
    | JArr [] => Ok true
    | JArr (_ :: _) => Ok false
    | _ => Throw (Error "isEmpty.array() input is not an Array.")
    end /\
  Check.isEmpty.string v =
    match v with
    | JStr s => Ok (String.eqb s "")
    | _ => Throw (Error "isEmpty.string() input is not a string.")
    end.
Proof.
  destruct v as [| | | | s | items |]; split; try reflexivity.
  - destruct s; reflexivity.
  - destruct items; reflexivity.
Qed.

(** X15. [Check.forNull] throws on [null] only, so [undefined] passes
    through it; [Check.forUndefined] throws on [undefined] only, so
    [null] passes through it; and [Check.ifExists] holds exactly when
    [Check.forUndefined] returns. *)
Theorem guards_throw_exactly (v : JsVal) :
  ((exists e, Check.forNull v = Throw e) <-> v = JNull) /\
  ((exists e, Check.forUndefined v = Throw e) <-> v = JUndefined) /\
  Return.element JUndefined = Ok JUndefined /\
  Return.number JNull = Ok JNull /\
  (Check.ifExists v = true <-> Check.forUndefined v = Ok v).
Proof.
  destruct v; cbn; repeat split;
    try (intros [e He]; discriminate);
    try discriminate; try reflexivity;
    try (intros _; eexists; reflexivity).
Qed.

(** ** Building elements *)

Lemma dbind_ok {A B} (m : D A) (k : A -> D B) (a : A) :
  outcome m = Ok a ->
  dbind m k = ((calls m ++ calls (k a))%list, outcome (k a)).
Proof. unfold dbind, outcome, calls. intros ->. reflexivity. Qed.

Lemma dbind_pair_ok {A B} (tr : list DomCall) (a : A) (k : A -> D B) :
  dbind (tr, Ok a) k = ((tr ++ calls (k a))%list, outcome (k a)).
Proof. reflexivity. Qed.

Lemma dbind_throw {A B} (m : D A) (k : A -> D B) (e : Exn) :
  outcome m = Throw e -> dbind m k = (calls m, Throw e).
Proof. unfold dbind, outcome, calls. intros ->. reflexivity. Qed.

Lemma Forall_calls_dbind {A B} (P : DomCall -> Prop) (m : D A) (k : A -> D B) :
  Forall P (calls m) ->
  (forall a, Forall P (calls (k a))) ->
  Forall P (calls (dbind m k)).
Proof.
  intros Hm Hk. unfold dbind, calls in *. destruct (snd m) as [a | e]; cbn.
  - apply Forall_app. split; [exact Hm | apply Hk].
  - exact Hm.
Qed.

Lemma In_calls_dbind_l {A B} (m : D A) (k : A -> D B) (c : DomCall) :
  In c (calls m) -> In c (calls (dbind m k)).
Proof.
  intros H. unfold dbind, calls in *. destruct (snd m); cbn; [| exact H].
  apply in_or_app. left. exact H.
Qed.

Lemma In_calls_dbind_r {A B} (m : D A) (k : A -> D B) (a : A) (c : DomCall) :
  outcome m = Ok a -> In c (calls (k a)) -> In c (calls (dbind m k)).
Proof.
  intros Hm H. rewrite (dbind_ok m k a Hm). cbn.
  apply in_or_app. right. exact H.
Qed.

Lemma dcall_ok (pg : Page) (c : DomCall) :
  accepts_all pg -> dcall pg c = ([c], Ok tt).
Proof. intros H. unfold dcall. rewrite H. reflexivity. Qed.

Lemma set_data_attributes_ok
    (pg : Page) (element : Element) (entries : list (string * string)) :
  accepts_all pg ->
  set_data_attributes pg element entries =
    (map (fun kv => SetAttribute element ("data-" ++ fst kv) (snd kv)) entries,
     Ok tt).
Proof.
  intros Hpg. induction entries as [| [k v] entries IH]; [reflexivity |].
  cbn [set_data_attributes]. rewrite (dcall_ok pg _ Hpg), IH. reflexivity.
Qed.

Lemma setElementAttributes_ok
    (pg : Page) (element : Element) (attributes : list (string * AttrVal)) :
  accepts_all pg -> outcome (setElementAttributes pg element attributes) = Ok tt.
Proof.
  intros Hpg. induction attributes as [| [key value] rest IH]; [reflexivity |].
  cbn [setElementAttributes].
  destruct value; try exact IH;
    repeat match goal with
    | |- context [if ?b then _ else _] => destruct b
    end;
    rewrite ?(set_data_attributes_ok pg _ _ Hpg), ?(dcall_ok pg _ Hpg);
    unfold dbind; cbn; exact IH.
Qed.

(** The calls of the later entries are made whenever the page refuses
    nothing. *)
Lemma setElementAttributes_cons_calls
    (pg : Page) (element : Element) (entry : string * AttrVal)
    (rest : list (string * AttrVal)) (c : DomCall) :
  accepts_all pg ->
  In c (calls (setElementAttributes pg element rest)) ->
  In c (calls (setElementAttributes pg element (entry :: rest))).
Proof.
  intros Hpg Hin. destruct entry as [key value].
  cbn [setElementAttributes].
  destruct value; try exact Hin;
    repeat match goal with
    | |- context [if ?b then _ else _] => destruct b
    end;
    rewrite ?(set_data_attributes_ok pg _ _ Hpg), ?(dcall_ok pg _ Hpg);
    (eapply In_calls_dbind_r; [reflexivity | exact Hin]).
Qed.

Lemma set_data_attributes_names
    (pg : Page) (element : Element) (entries : list (string * string)) :
  Forall (fun c => is_SetAttribute_named is_direct_property c = false)
    (calls (set_data_attributes pg element entries)).
Proof.
  induction entries as [| [k v] entries IH]; [constructor |].
  cbn [set_data_attributes]. apply Forall_calls_dbind.
  - constructor; [reflexivity | constructor].
  - intros _. exact IH.
Qed.

(** X16. No attribute whose name starts with "on", and no attribute
    named innerText, innerHTML or textContent, is ever set through
    [setAttribute]: handlers and text are assigned as properties, so a
    handler is never turned into a string. *)
Theorem setElementAttributes_no_handler_attribute
    (pg : Page) (element : Element) (attributes : list (string * AttrVal)) :
  Forall (fun c => is_SetAttribute_named is_direct_property c = false)
    (calls (setElementAttributes pg element attributes)).
Proof.
  induction attributes as [| [key value] rest IH]; [constructor |].
  cbn [setElementAttributes].
  destruct value; try exact IH;
    repeat match goal with
    | |- context [if ?b then _ else _] => destruct b eqn:?
    end;
    (apply Forall_calls_dbind; [| intros _; exact IH]);
    try apply set_data_attributes_names;
    (constructor; [| constructor]); cbn; try reflexivity; assumption.
Qed.

(** X17. Entries whose value is [undefined] are skipped: leaving them
    out of the attributes changes neither the calls nor the outcome. *)
Theorem setElementAttributes_skips_undefined
    (pg : Page) (element : Element) (attributes : list (string * AttrVal)) :
  setElementAttributes pg element attributes =
  setElementAttributes pg element (List.filter defined_entry attributes).
Proof.
  induction attributes as [| [key value] rest IH]; [reflexivity |].
  destruct value; cbn [List.filter defined_entry snd setElementAttributes];
    rewrite <- ?IH; reflexivity.
Qed.

(** X18. When the page refuses no call, every entry takes effect: a
    class list is added, every entry of a data record becomes a [data-]
    attribute, a handler or text key is assigned as a property with its
    value as given, and any other defined value is set as an attribute
    in its string form. *)
Theorem setElementAttributes_applies_every_entry
    (pg : Page) (element : Element) (attributes : list (string * AttrVal))
    (Hpg : accepts_all pg) :
  outcome (setElementAttributes pg element attributes) = Ok tt /\
  (forall items,
     In ("classList", AStrings items) attributes ->
     In (ClassListAdd element items)
        (calls (setElementAttributes pg element attributes))) /\
  (forall entries k v,
     In ("data", ARecord entries) attributes ->
     In (k, v) entries ->
     In (SetAttribute element ("data-" ++ k) v)
        (calls (setElementAttributes pg element attributes))) /\
  (forall key value,
     In (key, value) attributes ->
     value <> AUndefined ->
     is_direct_property key = true ->
     In (SetProperty element key value)
        (calls (setElementAttributes pg element attributes))) /\
  (forall key value,
     In (key, value) attributes ->
     value <> AUndefined ->
     key <> "classList" -> key <> "data" ->
     is_direct_property key = false ->
     In (SetAttribute element key (attr_String value))
        (calls (setElementAttributes pg element attributes))).
Proof.
  split; [apply setElementAttributes_ok; exact Hpg |].
  induction attributes as [| entry rest IH].
  { repeat split; intros; contradiction. }
  destruct IH as (IHclass & IHdata & IHprop & IHattr).
  split; [| split; [| split]].
  - intros items [-> | Hin].
    + cbn [setElementAttributes]. cbn [String.eqb attr_isArray andb].
      change (String.eqb "classList" "classList") with true. cbn [andb].
      apply In_calls_dbind_l. rewrite (dcall_ok pg _ Hpg). left. reflexivity.
    + apply setElementAttributes_cons_calls; [exact Hpg | auto].
  - intros entries k v [-> | Hin] Hkv.
    + cbn [setElementAttributes].
      change (String.eqb "data" "classList") with false.
      change (String.eqb "data" "data") with true. cbn.
      apply In_calls_dbind_l. rewrite (set_data_attributes_ok pg _ _ Hpg).
      cbn [calls fst].
      apply (in_map (fun kv => SetAttribute element ("data-" ++ fst kv) (snd kv))
               entries (k, v) Hkv).
    + apply setElementAttributes_cons_calls; [exact Hpg | eauto].
  - intros key value [-> | Hin] Hdef Hdirect.
    + assert (Hc : String.eqb key "classList" = false).
      { destruct (String.eqb_spec key "classList") as [-> |]; [| reflexivity].
        discriminate Hdirect. }
      assert (Hd : String.eqb key "data" = false).
      { destruct (String.eqb_spec key "data") as [-> |]; [| reflexivity].
        discriminate Hdirect. }
      cbn [setElementAttributes]. rewrite Hc, Hd, Hdirect. cbn [andb].
      destruct value; try congruence;
        (apply In_calls_dbind_l; rewrite (dcall_ok pg _ Hpg);
         left; reflexivity).
    + apply setElementAttributes_cons_calls; [exact Hpg | auto].
  - intros key value [-> | Hin] Hdef Hclass Hdata Hdirect.
    + apply String.eqb_neq in Hclass, Hdata.
      cbn [setElementAttributes]. rewrite Hclass, Hdata, Hdirect. cbn [andb].
      destruct value; try congruence;
        (apply In_calls_dbind_l; rewrite (dcall_ok pg _ Hpg);
         left; reflexivity).
    + apply setElementAttributes_cons_calls; [exact Hpg | auto].
Qed.

Lemma setElementAttributes_applies_every_entry_witness :
  In (SetAttribute {| namespace := HTML; localName := "button" |}
        "data-kind" "mark")
     (calls (setElementAttributes page_empty
               {| namespace := HTML; localName := "button" |}
               sample_attributes)) /\
  In (SetAttribute {| namespace := HTML; localName := "button" |}
        "tabIndex" "3")
     (calls (setElementAttributes page_empty
               {| namespace := HTML; localName := "button" |}
               sample_attributes)) /\
  In (SetAttribute {| namespace := HTML; localName := "button" |}
        "width" "1e+21")
     (calls (setElementAttributes page_empty
               {| namespace := HTML; localName := "button" |}
               sample_attributes)).
Proof.
  destruct (setElementAttributes_applies_every_entry page_empty
              {| namespace := HTML; localName := "button" |}
              sample_attributes (fun _ => eq_refl))
    as (_ & _ & Hdata & _ & Hattr).
  split; [| split].
  - apply (Hdata [("kind", "mark"); ("slot", "1")] "kind" "mark").
    + cbn. tauto.
    + cbn. tauto.
  - apply (Hattr "tabIndex" (ANum "3")).
    + cbn. tauto.
    + discriminate.
    + discriminate.
    + discriminate.
    + reflexivity.
  - apply (Hattr "width" (ANum "1e+21")).
    + cbn. tauto.
    + discriminate.
    + discriminate.
    + discriminate.
    + reflexivity.
Defined.

(** X19. With no target — [appendTo] left out, or the empty string —
    [buildElement] looks nothing up and appends nothing: on a page that
    refuses no call it creates the element, sets its attributes and
    returns it. *)
Theorem buildElement_without_target
    (pg : Page) (tagName : string) (attributes : list (string * AttrVal))
    (appendTo : AppendTo)
    (Hfalsy : appendTo_truthy appendTo = false)
    (Hpg : accepts_all pg) :
  let element := {| namespace := HTML; localName := tagName |} in
  buildElement pg tagName attributes appendTo =
    (CreateElement tagName ::
       calls (setElementAttributes pg element attributes),
     Ok element).
Proof.
  intros element. unfold buildElement. fold element.
  rewrite Hfalsy, (dcall_ok pg _ Hpg).
  rewrite dbind_pair_ok. cbn [calls outcome fst snd].
  rewrite (dbind_ok _ _ tt (setElementAttributes_ok pg element attributes Hpg)).
  cbn. rewrite app_nil_r. reflexivity.
Qed.

Lemma buildElement_without_target_witness :
  buildElement page_with_stage "span" [("id", AStr "note")] (ById "") =
    ([CreateElement "span";
      SetAttribute {| namespace := HTML; localName := "span" |} "id" "note"],
     Ok {| namespace := HTML; localName := "span" |}).
Proof.
  apply (buildElement_without_target page_with_stage "span"
           [("id", AStr "note")] (ById "")).
  - reflexivity.
  - intros c. reflexivity.
Defined.

(** X20. With an id that names no element, [buildElement] and
    [buildSVG] throw the error of [Get.elementByID] after the element
    is created and configured: the element is neither appended nor
    returned. *)
Theorem build_with_missing_target_throws
    (pg : Page) (tagName : string) (attributes : list (string * AttrVal))
    (id : string)
    (Hid : id <> "")
    (Hmissing : getElementById pg id = None)
    (Hpg : accepts_all pg) :
  buildElement pg tagName attributes (ById id) =
    (((CreateElement tagName ::
        calls (setElementAttributes pg
                 {| namespace := HTML; localName := tagName |} attributes)) ++
     [GetElementById id; DomConsoleLog "element:"])%list,
     Throw (Error "Element is null in elementByID.")) /\
  buildSVG pg tagName attributes (ById id) =
    (((CreateElementNS svgNS tagName ::
        calls (setElementAttributes pg
                 {| namespace := SVG; localName := tagName |} attributes)) ++
     [GetElementById id; DomConsoleLog "element:"])%list,
     Throw (Error "Element is null in elementByID.")).
Proof.
  apply String.eqb_neq in Hid.
  unfold buildElement, buildSVG, appendTo_truthy, resolve_target,
    Get.elementByID.
  rewrite Hid, Hmissing, !(dcall_ok pg _ Hpg). cbn [negb].
  split.
  - rewrite dbind_pair_ok. cbn [calls outcome fst snd].
    rewrite (dbind_ok _ _ tt (setElementAttributes_ok pg _ attributes Hpg)).
    reflexivity.
  - rewrite dbind_pair_ok. cbn [calls outcome fst snd].
    rewrite (dbind_ok _ _ tt (setElementAttributes_ok pg _ attributes Hpg)).
    reflexivity.
Qed.

Lemma build_with_missing_target_throws_witness :
  outcome (buildElement page_empty "button" [] (ById "stage")) =
    Throw (Error "Element is null in elementByID.").
Proof.
  destruct (build_with_missing_target_throws page_empty "button" [] "stage")
    as [H _].
  - discriminate.
  - reflexivity.
  - intros c. reflexivity.
  - rewrite H. reflexivity.
Defined.

(** X21. Given an SVG element as target, [buildElement] logs an error
    and returns the new element unattached, while [buildSVG] appends to
    it; given an HTML element, both append, as their last call. *)
Theorem build_target_kinds
    (pg : Page) (tagName : string) (attributes : list (string * AttrVal))
    (target : Element)
    (Hpg : accepts_all pg) :
  let html := {| namespace := HTML; localName := tagName |} in
  let svg := {| namespace := SVG; localName := tagName |} in
  (namespace target = SVG ->
   buildElement pg tagName attributes (ToElement target) =
     (((CreateElement tagName ::
         calls (setElementAttributes pg html attributes)) ++
      [DomConsoleError "The appendTo for target is not an HTML element."])%list,
      Ok html) /\
   buildSVG pg tagName attributes (ToElement target) =
     (((CreateElementNS svgNS tagName ::
         calls (setElementAttributes pg svg attributes)) ++
      [AppendChild target svg])%list,
      Ok svg)) /\
  (namespace target = HTML ->
   buildElement pg tagName attributes (ToElement target) =
     (((CreateElement tagName ::
         calls (setElementAttributes pg html attributes)) ++
      [AppendChild target html])%list,
      Ok html) /\
   buildSVG pg tagName attributes (ToElement target) =
     (((CreateElementNS svgNS tagName ::
         calls (setElementAttributes pg svg attributes)) ++
      [AppendChild target svg])%list,
      Ok svg)).
Proof.
  intros html svg.
  assert (Hhtml := setElementAttributes_ok pg html attributes Hpg).
  assert (Hsvg := setElementAttributes_ok pg svg attributes Hpg).
  unfold buildElement, buildSVG. fold html svg.
  rewrite !(dcall_ok pg _ Hpg), !dbind_pair_ok.
  cbn [calls outcome fst snd].
  rewrite (dbind_ok (setElementAttributes pg html attributes) _ tt Hhtml).
  rewrite (dbind_ok (setElementAttributes pg svg attributes) _ tt Hsvg).
  cbn [appendTo_truthy resolve_target calls outcome fst snd].
  unfold dret. rewrite !dbind_pair_ok.
  unfold instanceof_HTMLElement, instanceof_SVGElement.
  split; intros Hns; rewrite Hns; cbn [negb andb];
    rewrite ?(dcall_ok pg _ Hpg), ?dbind_pair_ok; split; reflexivity.
Qed.

Lemma build_target_kinds_witness :
  outcome (buildElement page_with_stage "span" []
             (ToElement {| namespace := SVG; localName := "svg" |})) =
    Ok {| namespace := HTML; localName := "span" |} /\
  In (AppendChild {| namespace := SVG; localName := "svg" |}
        {| namespace := SVG; localName := "circle" |})
     (calls (buildSVG page_with_stage "circle" []
               (ToElement {| namespace := SVG; localName := "svg" |}))).
Proof.
  split.
  - destruct (build_target_kinds page_with_stage "span" []
                {| namespace := SVG; localName := "svg" |}
                (fun _ => eq_refl)) as [H _].
    destruct (H eq_refl) as [H1 _]. rewrite H1. reflexivity.
  - destruct (build_target_kinds page_with_stage "circle" []
                {| namespace := SVG; localName := "svg" |}
                (fun _ => eq_refl)) as [H _].
    destruct (H eq_refl) as [_ H2]. rewrite H2. cbn. tauto.
Defined.

(** X22. When the page refuses a call made for the attributes, the
    exception leaves [buildElement]: no target is looked up, nothing is
    appended, and no element is returned. *)
Theorem buildElement_attribute_failure_propagates
    (pg : Page) (tagName : string) (attributes : list (string * AttrVal))
    (appendTo : AppendTo) (e : Exn)
    (Hcreate : rejects pg (CreateElement tagName) = None)
    (Hfail : outcome (setElementAttributes pg
                        {| namespace := HTML; localName := tagName |}
                        attributes) = Throw e) :
  buildElement pg tagName attributes appendTo =
    (CreateElement tagName ::
       calls (setElementAttributes pg
                {| namespace := HTML; localName := tagName |} attributes),
     Throw e).
Proof.
  unfold buildElement, dcall. rewrite Hcreate.
  rewrite dbind_pair_ok. cbn [calls outcome fst snd].
  rewrite (dbind_throw _ _ e Hfail). reflexivity.
Qed.

Lemma buildElement_attribute_failure_propagates_witness :
  buildElement page_strict "div"
    [("classList", AStrings [""]); ("id", AStr "late")] (ById "stage") =
    ([CreateElement "div";
      ClassListAdd {| namespace := HTML; localName := "div" |} [""]],
     Throw (Error "The token provided must not be empty.")).
Proof.
  apply (buildElement_attribute_failure_propagates page_strict "div"
           [("classList", AStrings [""]); ("id", AStr "late")] (ById "stage")).
  - reflexivity.
  - reflexivity.
Defined.

(** ** The popup's start *)

(** X23. [Get.button] returns only buttons, and then the element
    [Get.elementByID] returns for the id; it fails as a missing element
    exactly when [Get.elementByID] does, and as a non-button exactly
    when the id names an element that is not a button. *)
Theorem Get_button_spec (pg : Page) (id : string) :
  (forall e : Element,
     outcome (Get.button pg id) = Ok e ->
     instanceof_HTMLButtonElement e = true /\
     outcome (Get.elementByID pg id) = Ok e) /\
  (outcome (Get.button pg id) = Throw (Error "Element is null in button.") <->
   outcome (Get.elementByID pg id) =
     Throw (Error "Element is null in elementByID.")) /\
  (outcome (Get.button pg id) = Throw (Error "Element is not a button.") <->
   exists e, getElementById pg id = Some e /\
             instanceof_HTMLButtonElement e = false).
Proof.
  unfold Get.button, Get.elementByID.
  destruct (getElementById pg id) as [item |].
  - destruct (instanceof_HTMLButtonElement item) eqn:Hbutton; cbn.
    + split; [intros e [= <-]; split; [exact Hbutton | reflexivity] |].
      split; [split; discriminate |].
      split; [discriminate |]. intros (e & [= <-] & He). congruence.
    + split; [intros e; discriminate |].
      split; [split; discriminate |].
      split; [intros _; exists item; split; [reflexivity | exact Hbutton] |].
      reflexivity.
  - cbn. split; [intros e; discriminate |].
    split; [split; reflexivity |].
    split; [discriminate |]. intros (e & He & _). discriminate.
Qed.

Lemma Get_button_spec_witness :
  instanceof_HTMLButtonElement {| namespace := HTML; localName := "button" |}
    = true /\
  outcome (Get.elementByID page_with_stage "go") =
    Ok {| namespace := HTML; localName := "button" |}.
Proof.
  destruct (Get_button_spec page_with_stage "go") as [H _].
  apply H. reflexivity.
Defined.

(** X24. When the popup's document has no element with the id "stage",
    [Main] fails: the button is never appended and no click handler is
    installed; the failure is the error of [Get.elementByID] unless
    creating the button already failed. *)
Theorem Main_without_stage (pg : Page)
    (Hmissing : getElementById pg "stage" = None) :
  exists e : Exn,
    outcome (Main pg) = Throw e /\
    Forall (fun c => is_SetProperty c = false /\ is_AppendChild c = false)
      (calls (Main pg)) /\
    (rejects pg (CreateElement "button") = None ->
     e = Error "Element is null in elementByID.").
Proof.
  unfold Main, buildElement, appendTo_truthy, resolve_target,
    Get.elementByID, dcall.
  rewrite Hmissing.
  destruct (rejects pg (CreateElement "button")) as [e |]; cbn.
  - exists e. split; [reflexivity |].
    split; [| discriminate]. repeat constructor.
  - eexists. split; [reflexivity |].
    split; [| reflexivity]. repeat constructor.
Qed.

Lemma Main_without_stage_witness :
  exists e : Exn,
    outcome (Main page_empty) = Throw e /\
    Forall (fun c => is_SetProperty c = false /\ is_AppendChild c = false)
      (calls (Main page_empty)) /\
    (rejects page_empty (CreateElement "button") = None ->
     e = Error "Element is null in elementByID.").
Proof. apply (Main_without_stage page_empty). reflexivity. Defined.

(** X25. When "stage" names an element and the page refuses no call,
    [Main] installs the label and the click handler on the new button;
    the button is appended to the stage when the stage is an HTML
    element, and otherwise stays unattached, an error being logged. *)
Theorem Main_with_stage (pg : Page) (stage : Element)
    (Hstage : getElementById pg "stage" = Some stage)
    (Hpg : accepts_all pg) :
  let mainButton := {| namespace := HTML; localName := "button" |} in
  Main pg =
    ([CreateElement "button"; GetElementById "stage";
      if instanceof_HTMLElement stage
      then AppendChild stage mainButton
      else DomConsoleError "The appendTo for target is not an HTML element.";
      SetProperty mainButton "textContent" (AStr "Make FallowMark");
      SetProperty mainButton "onclick" (AHandler "async () => {}")],
     Ok tt).
Proof.
  intros mainButton. unfold accepts_all in Hpg.
  unfold Main, buildElement, appendTo_truthy, resolve_target,
    Get.elementByID, dcall.
  rewrite Hstage. cbn. rewrite Hpg. cbn.
  destruct (instanceof_HTMLElement stage); cbn;
    repeat (rewrite Hpg; cbn); reflexivity.
Qed.

Lemma Main_with_stage_witness :
  Main page_with_stage =
    ([CreateElement "button"; GetElementById "stage";
      AppendChild {| namespace := HTML; localName := "div" |}
        {| namespace := HTML; localName := "button" |};
      SetProperty {| namespace := HTML; localName := "button" |}
        "textContent" (AStr "Make FallowMark");
      SetProperty {| namespace := HTML; localName := "button" |}
        "onclick" (AHandler "async () => {}")],
     Ok tt).
Proof.
  apply (Main_with_stage page_with_stage
           {| namespace := HTML; localName := "div" |}).
  - reflexivity.
  - intros c. reflexivity.
Defined.

(** ** After the first mark *)

(** X26. After a first complete click on a store with neither slot,
    a further complete click changes nothing and writes nothing,
    whatever tab is then active: once a mark is stored, no other tab is
    ever marked. *)
Theorem second_click_changes_nothing
    (env env' : Env) (tab : Tab) (rest : list Tab) (w : World)
    (Hversion : storage w !! "followMarkVersion" = None)
    (Hmarks : storage w !! "followMarks" = None)
    (Hnonempty : manifest_version env <> "")
    (Htabs : active_tabs env = tab :: rest) :
  world (click env' (world (click env w))) = world (click env w) /\
  storage_writes (events (click env' (world (click env w)))) = [] /\
  MakeMark_calls (events (click env' (world (click env w)))) = 0.
Proof.
  destruct (getInfoFromTab_total env tab fresh)
    as (info & Hinfo & _).
  assert (Hworld : world (click env w) =
            {| storage := mark_items env info ∪ (version_items env ∪ storage w);
               pending := [] |}).
  { rewrite click_eq. cbn [world]. rewrite onclick_eq. cbn [world].
    rewrite (prop_absent _ _ Hversion), (prop_absent _ _ Hmarks).
    cbn [truthy]. unfold drain. cbn [storage pending].
    rewrite (run_tasks_tab env tab rest info Htabs Hinfo).
    cbn [storage pending]. destruct (pending w); reflexivity. }
  rewrite Hworld. set (w1 := {| storage := _; pending := [] |}).
  assert (Hv1 : prop (storage w1) "followMarkVersion" =
                JStr (manifest_version env)).
  { apply prop_present. subst w1. cbn [storage].
    rewrite lookup_mark_items_other by discriminate.
    apply lookup_version_items_followMarkVersion. }
  assert (Hm1 : truthy (prop (storage w1) "followMarks") = true).
  { subst w1. cbn [storage].
    rewrite (prop_present _ _ _ (lookup_mark_items_followMarks env info
                                    (version_items env ∪ storage w))).
    reflexivity. }
  assert (Hclick : onclick env' w1 =
            {| result := Ok tt; world := w1;
               events := events (onclick env' w1) |}).
  { rewrite onclick_eq at 1. rewrite onclick_eq.
    rewrite Hv1, Hm1, (truthy_JStr _ Hnonempty). reflexivity. }
  rewrite click_eq. cbn [world events]. rewrite Hclick. cbn [world events].
  rewrite (drain_idle env' w1 eq_refl). cbn [world events].
  rewrite app_nil_r, onclick_eq. cbn [events].
  rewrite Hv1, Hm1, (truthy_JStr _ Hnonempty).
  repeat split; reflexivity.
Qed.

Lemma second_click_changes_nothing_witness :
  world (click env_icon (world (click env_a fresh))) =
    world (click env_a fresh).
Proof.
  apply (second_click_changes_nothing env_a env_icon tab_a [] fresh);
    try reflexivity. discriminate.
Defined.
